(** * csv_manager: a CSV file managed as an in-memory table

    A shallow embedding of [csv_manager/manager.py] (class [CSVManager]) and
    of the part of pandas it calls.

    The class keeps one [pandas.DataFrame] in [self.data] and a path in
    [self.filepath]; its methods print diagnostics, read and write the file
    system, and call caller-supplied functions on rows.  All of this is
    state: the embedding threads a [World] (object heap, the CSVManager
    object, standard output, file system, caller state) through a state and
    exception monad [M].  DataFrame objects live on the heap and are
    referred to by position, so that a copy and the original are two
    objects and an in-place write is seen through every reference.

    pandas is modelled at the level the class uses it:
    - a cell is a tagged value: missing (None and NaN alike), text, integer
      or boolean.  Floating-point numbers other than NaN are outside the
      model, and so are the column types (dtypes) of pandas: a frame holds
      values only.  Where pandas would re-type a column (an integer column
      that receives a missing value becomes floating point) or, from
      version 3 on, refuse a value that does not fit the column, the
      statements about cell values are made for values that fit the
      column ([fits]);
    - a DataFrame has an index (one label per row, possibly named), column
      labels, and one list of cells per row;
    - a CSV file is a list of records, each a list of text fields: the
      quoting and delimiter layer of the format is abstracted away.
      [read_csv] is a function of these records that the development
      leaves open ([Reader]); [parse_csv] says what it returns on the files
      made of integers, [True]/[False], words and empty fields under
      distinct column names, and nothing on the others;
    - the file system is a flat map from paths to files and directories:
      statements about a successful write are made for plain file names;
    - [DataFrame.apply(f, axis=1)] calls [f] once per row, in row order
      (pandas 1.1 and later);
    - label-based selection [df.loc[labels]] resolves each label to every
      position of the index that carries it. *)

From Stdlib Require Import ZArith String Ascii List Bool Lia.
From Stdlib Require Import DecimalString DecimalZ DecimalPos.
From stdpp Require Import base option list gmap strings.

Local Open Scope string_scope.
Local Open Scope list_scope.

(** ** Cells, rows and frames *)

Inductive cell : Type :=
  | Null                 (* None / NaN: a missing value *)
  | Str (s : string)
  | Num (z : Z)
  | Boolean (b : bool).

#[global] Instance cell_eq_dec : EqDecision cell.
Proof. solve_decision. Defined.

(** A row as a function passed to [apply(..., axis=1)] sees it: a pandas
    Series whose labels are the column names and whose name is the row's
    index label. *)
Record Series : Type := mkSeries {
  name : cell;
  items : list (string * cell) }.

(** [row[col]]; [None] stands for the KeyError pandas raises. *)
Fixpoint dict_get (col : string) (kvs : list (string * cell)) : option cell :=
  match kvs with
  | [] => None
  | (k, v) :: kvs' => if decide (k = col) then Some v else dict_get col kvs'
  end.

Definition getitem (row : Series) (col : string) : option cell :=
  dict_get col (items row).

Record DataFrame : Type := mkDataFrame {
  index_name : option string;       (* df.index.name *)
  columns : list string;            (* df.columns *)
  rows : list (cell * list cell) }. (* index label and cells of each row *)

#[global] Instance DataFrame_eq_dec : EqDecision DataFrame.
Proof. solve_decision. Defined.

(** Every row has one cell per column. *)
Definition aligned (d : DataFrame) : Prop :=
  Forall (λ r, length r.2 = length (columns d)) (rows d).

(** [pd.DataFrame()] *)
Definition empty_frame : DataFrame :=
  {| index_name := None; columns := []; rows := [] |}.

(** [df.shape] *)
Definition shape (d : DataFrame) : nat * nat :=
  (length (rows d), length (columns d)).

(** [df.empty]: true when either axis has length 0. *)
Definition empty (d : DataFrame) : bool :=
  (length (rows d) =? 0)%nat || (length (columns d) =? 0)%nat.

(** [df.index] *)
Definition index (d : DataFrame) : list cell := fst <$> rows d.

(** The cells of the rows, without their labels. *)
Definition cells (d : DataFrame) : list (list cell) := snd <$> rows d.

(** [pd.RangeIndex(n)] *)
Definition range_index (n : nat) : list cell :=
  (λ i, Num (Z.of_nat i)) <$> seq 0 n.

(** The rows as [apply(..., axis=1)] hands them to the function. *)
Definition row_series (d : DataFrame) (r : cell * list cell) : Series :=
  {| name := r.1; items := zip (columns d) r.2 |}.

Definition iter_rows (d : DataFrame) : list Series :=
  row_series d <$> rows d.

(** Positions of a label in an axis (all of them, in order). *)
Fixpoint locate_from {A} `{EqDecision A} (i : nat) (x : A) (l : list A) : list nat :=
  match l with
  | [] => []
  | y :: l' =>
      if decide (y = x) then i :: locate_from (S i) x l'
      else locate_from (S i) x l'
  end.

Definition locate {A} `{EqDecision A} (x : A) (l : list A) : list nat :=
  locate_from 0 x l.

(** [col in df.columns] *)
Definition has_column (col : string) (d : DataFrame) : bool :=
  bool_decide (col ∈ columns d).

(** Boolean indexing [df[mask]], the mask aligned with the rows. *)
Fixpoint select_mask {A} (mask : list bool) (l : list A) : list A :=
  match mask, l with
  | b :: mask', x :: l' =>
      if b then x :: select_mask mask' l' else select_mask mask' l'
  | _, _ => []
  end.

Definition getitem_mask (mask : list bool) (d : DataFrame) : DataFrame :=
  {| index_name := index_name d;
     columns := columns d;
     rows := select_mask mask (rows d) |}.

(** [df[cols]] for a list of column labels that all exist: each requested
    label selects the column(s) of that name, in the order requested. *)
Definition take_cells (positions : list nat) (cs : list cell) : list cell :=
  (λ j, default Null (cs !! j)) <$> positions.

Definition getitem_columns (cols : list string) (d : DataFrame) : DataFrame :=
  let positions := cols ≫= (λ c, locate c (columns d)) in
  {| index_name := index_name d;
     columns := (λ j, default "" (columns d !! j)) <$> positions;
     rows := (λ r, (r.1, take_cells positions r.2)) <$> rows d |}.

(** [pd.DataFrame([row_data])]: one row, labelled 0, whose columns are the
    keys of the dict in insertion order. *)
Definition frame_of_dict (row_data : list (string * cell)) : DataFrame :=
  {| index_name := None;
     columns := fst <$> row_data;
     rows := [(Num 0, snd <$> row_data)] |}.

(** [df.reindex(columns=cols, fill_value=None)]: the frame conformed to the
    column labels [cols]; a label the frame lacks yields a missing value
    (pandas turns the fill value [None] into NaN), a column of the frame
    that is not among [cols] is dropped. *)
Definition reindex_cell (old : list string) (cs : list cell) (c : string) : cell :=
  match locate c old with
  | j :: _ => default Null (cs !! j)
  | [] => Null
  end.

Definition reindex_columns (cols : list string) (d : DataFrame) : DataFrame :=
  {| index_name := index_name d;
     columns := cols;
     rows := (λ r, (r.1, reindex_cell (columns d) r.2 <$> cols)) <$> rows d |}.

(** Relabel rows 0, 1, 2, ... *)
Definition renumber (rs : list (cell * list cell)) : list (cell * list cell) :=
  zip (range_index (length rs)) (snd <$> rs).

(** [pd.concat([a, b], ignore_index=True)]: rows of [a] then rows of [b],
    over the union of the columns ([a]'s first, then those only in [b]);
    when both frames carry the same column labels no realignment takes
    place.  The result has a fresh default index.  The cells are the
    cells of [a] and [b] where every column of [b] fits the column of [a]
    it joins; where pandas re-types a column this definition gives the
    labels and the number of cells only. *)
Definition union_columns (ca cb : list string) : list string :=
  ca ++ filter (λ c, c ∉ ca) cb.

Definition concat_ignore_index (a b : DataFrame) : DataFrame :=
  if decide (columns a = columns b) then
    {| index_name := None;
       columns := columns a;
       rows := renumber (rows a ++ rows b) |}
  else
    let cols := union_columns (columns a) (columns b) in
    {| index_name := None;
       columns := cols;
       rows := renumber (rows (reindex_columns cols a) ++
                         rows (reindex_columns cols b)) |}.

(** [df.reset_index(drop=True)] *)
Definition reset_index_drop (d : DataFrame) : DataFrame :=
  {| index_name := None; columns := columns d; rows := renumber (rows d) |}.

(** Label-based row selection, as [df.loc[labels]] resolves it: for each
    requested label, every position of the index carrying that label. *)
Definition loc_positions (labels : list cell) (d : DataFrame) : list nat :=
  labels ≫= (λ l, locate l (index d)).

Definition loc_rows (labels : list cell) (d : DataFrame) : list (cell * list cell) :=
  omap (λ i, rows d !! i) (loc_positions labels d).

(** Writing [v] into the cells of a row under every column named [col]. *)
Definition write_cells (cols : list string) (col : string) (v : cell)
    (cs : list cell) : list cell :=
  foldl (λ cs' j, <[j := v]> cs') cs (locate col cols).

(** Writing one cell: row [i], column [col]. *)
Definition set_cell (col : string) (v : cell) (d : DataFrame) (i : nat) : DataFrame :=
  {| index_name := index_name d;
     columns := columns d;
     rows := alter (λ r, (r.1, write_cells (columns d) col v r.2)) i (rows d) |}.

(** [df.loc[labels, col] = v] for a scalar [v] that fits the column (up to
    pandas 2 a value that does not fit is written all the same and the
    column re-typed; from pandas 3 on the write raises TypeError). *)
Definition loc_set_scalar (labels : list cell) (col : string) (v : cell)
    (d : DataFrame) : DataFrame :=
  foldl (set_cell col v) d (loc_positions labels d).

(** [df.loc[labels, col] = s] for a Series [s] computed from
    [df.loc[labels]]: its index is the index of the selection, so the
    values are written positionally, in order.  As for a scalar, this is
    the write of values that fit the column. *)
Definition loc_set_values (labels : list cell) (col : string) (vs : list cell)
    (d : DataFrame) : DataFrame :=
  foldl (λ d' iv, set_cell col iv.2 d' iv.1) d (zip (loc_positions labels d) vs).

(** ** The text layer of [to_csv] and [read_csv] *)

Definition render_nat (n : nat) : string := NilZero.string_of_uint (Nat.to_uint n).
Definition render_Z (z : Z) : string := NilZero.string_of_int (Z.to_int z).
Definition parse_Z (s : string) : option Z := Z.of_int <$> NilZero.int_of_string s.

(** How [to_csv] writes a cell (default [na_rep='']). *)
Definition render (c : cell) : string :=
  match c with
  | Null => ""
  | Str s => s
  | Num z => render_Z z
  | Boolean true => "True"
  | Boolean false => "False"
  end.

(** An integer that fits 64 bits, signed: the integers [read_csv] reads
    as integers. *)
Definition is_num (c : cell) : bool :=
  match c with
  | Num z => (- 2 ^ 63 <=? z)%Z && (z <? 2 ^ 63)%Z
  | _ => false
  end.

Definition is_letter (a : ascii) : bool :=
  let n := nat_of_ascii a in
  ((65 <=? n) && (n <=? 90) || (97 <=? n) && (n <=? 122))%nat.

Definition lower (a : ascii) : ascii :=
  let n := nat_of_ascii a in
  if ((65 <=? n) && (n <=? 90))%nat then ascii_of_nat (n + 32) else a.

Definition lowercase (s : string) : string :=
  string_of_list_ascii (lower <$> list_ascii_of_string s).

(** The words [read_csv] does not keep as text, in any casing: its
    missing-value tokens, its boolean tokens and the infinite numbers. *)
Definition reserved_words : list string :=
  ["nan"; "na"; "null"; "none"; "true"; "false"; "inf"; "infinity"].

(** A word: letters only, at least one, and not reserved.  [read_csv]
    keeps a word as the text it is. *)
Definition is_word (s : string) : bool :=
  negb (String.eqb s "")
  && forallb is_letter (list_ascii_of_string s)
  && negb (bool_decide (lowercase s ∈ reserved_words)).

(** A field as [to_csv] writes an integer: decimal digits, a minus sign
    for a negative one, no leading zeros. *)
Definition int_field (s : string) : option Z :=
  z ← parse_Z s;
  if is_num (Num z) && String.eqb (render_Z z) s then Some z else None.

Definition bool_field (s : string) : option bool :=
  if String.eqb s "True" then Some true
  else if String.eqb s "False" then Some false
  else None.

(** An empty field is a missing value. *)
Definition text_field (s : string) : option cell :=
  if String.eqb s "" then Some Null
  else if is_word s then Some (Str s)
  else None.

(** Type inference of [read_csv] on one column of fields, where the model
    covers it: a column of integers, a column of booleans, or a column of
    words and missing values.  On other columns (floating-point numbers,
    numbers in another spelling, integers next to missing values, which
    pandas reads as floating point, mixed kinds, other tokens) it says
    nothing. *)
Definition infer_column (fields : list string) : option (list cell) :=
  match fields with
  | [] => Some []
  | _ =>
      match mapM int_field fields with
      | Some zs => Some (Num <$> zs)
      | None =>
          match mapM bool_field fields with
          | Some bs => Some (Boolean <$> bs)
          | None => mapM text_field fields
          end
      end
  end.

(** Header names: an empty header field at position [i] is named
    [Unnamed: i]. *)
Definition header_names (fields : list string) : list string :=
  imap (λ i s, if decide (s = "") then "Unnamed: " +:+ render_nat i else s) fields.

Inductive exn : Type :=
  | EmptyDataError                       (* pandas.errors.EmptyDataError *)
  | ParserError (expected saw : nat)     (* pandas.errors.ParserError *)
  | ValueError (msg : string)
  | TypeError (msg : string)
  | FileNotFoundError (path : string)
  | IsADirectoryError (path : string)
  | UserException (tag : string).        (* raised by a caller-supplied function *)

#[global] Instance exn_eq_dec : EqDecision exn.
Proof. solve_decision. Defined.

(** Field [j] of every record; a record that ends early has empty fields
    there. *)
Definition field_column (j : nat) (records : list (list string)) : list string :=
  (λ r, default "" (r !! j)) <$> records.

Definition delete_at {A} (j : nat) (l : list A) : list A := take j l ++ drop (S j) l.

(** [pd.read_csv] on the records of a file, where the model covers it
    ([None] where it does not).  Blank lines are skipped; a file without
    records is an EmptyDataError; the first record is the header; a
    record after the first data record with more fields than the header
    is a tokenizing error; a record that ends early has missing values;
    columns are typed one by one.  With [index_col] the named column
    becomes the index and leaves the columns; a name that is no column is
    a ValueError.

    Left open: header names that are not distinct (pandas renames them),
    a first data record longer than the header (pandas takes the surplus
    fields for an index), columns [infer_column] leaves open, and with
    [index_col]: a file without data records, an index column whose header
    field is empty, and a name that is no column in a file that also has a
    record too long. *)
Definition parse_csv (text : list (list string)) (index_col : option string)
    : option (exn + DataFrame) :=
  match filter (λ r, r ≠ []) text with
  | [] => Some (inl EmptyDataError)
  | header :: records =>
      let names := header_names header in
      let width := length header in
      if negb (bool_decide (NoDup names)) then None
      else if bool_decide (width < length (default [] (head records)))%nat then None
      else
        match list_find (λ r, width < length r)%nat records with
        | Some (_, r) =>
            if match index_col with
               | Some c => bool_decide (c ∈ names)
               | None => true
               end
            then Some (inl (ParserError width (length r)))
            else None
        | None =>
            cols ← mapM (λ j, infer_column (field_column j records)) (seq 0 width);
            let row_cells (i : nat) : list cell :=
              (λ col : list cell, default Null (col !! i)) <$> cols in
            let n := length records in
            match index_col with
            | None =>
                Some (inr {| index_name := None;
                             columns := names;
                             rows := (λ i, (Num (Z.of_nat i), row_cells i)) <$> seq 0 n |})
            | Some c =>
                match records, locate c names with
                | [], _ => None
                | _, [] => Some (inl (ValueError ("Index " +:+ c +:+ " invalid")))
                | _, j :: _ =>
                    if decide (header !! j = Some "") then None
                    else
                      Some (inr {| index_name := Some c;
                                   columns := delete_at j names;
                                   rows := (λ i, (default Null (row_cells i !! j),
                                                  delete_at j (row_cells i)))
                                           <$> seq 0 n |})
                end
            end
        end
  end.

(** [pd.read_csv] as the class calls it: a function of the records of the
    file and of [index_col] that returns a DataFrame or raises.  Which
    function it is, is left open. *)
Class Reader : Type := { read_text : list (list string) → option string → exn + DataFrame }.

(** The reader returns what the model says wherever the model says
    something. *)
Definition agrees_with_model {RD : Reader} : Prop :=
  ∀ text index_col r, parse_csv text index_col = Some r → read_text text index_col = r.

(** A reader that agrees with the model; what it does on the other files
    plays no role. *)
Definition model_reader : Reader :=
  {| read_text := λ text index_col,
       default (inl EmptyDataError) (parse_csv text index_col) |}.

(** The records [df.to_csv] writes: a header, then one record per row;
    with [index=True] (the default) each starts with the index label,
    under the index name or an empty header field. *)
Definition csv_records (with_index : bool) (d : DataFrame) : list (list string) :=
  ((if with_index then [default "" (index_name d)] else []) ++ columns d)
  :: ((λ r, (if with_index then [render r.1] else []) ++ (render <$> r.2)) <$> rows d).

(** ** The world the class runs in *)

(** What a path of the file system holds. *)
Inductive node : Type :=
  | Directory
  | RegularFile (text : list (list string)).

(** One constructor per [print] statement of the class, carrying the values
    its f-string interpolates. *)
Inductive message : Type :=
  | Loaded (path : string) (shp : nat * nat)
  | WarnFileNotFound (path : string)
  | WarnFileEmpty (path : string)
  | ErrorLoading (e : exn)
  | NoDataToQuery
  | WarnColumnsIgnored (missing : gset string)
  | RowAdded (shp : nat * nat)
  | NoDataToUpdate
  | NoRowsMatched
  | WarnColumnNotFound (col : string)
  | Updated (n : nat)
  | NoDataToDelete
  | Deleted (n : Z) (shp : nat * nat)
  | Saved (path : string)
  | ErrorSaving (e : exn).

(** What a call evaluates to. *)
Inductive result (A : Type) : Type :=
  | Ok (a : A)
  | Raise (e : exn).
Arguments Ok {A} a.
Arguments Raise {A} e.

(** A Python object a method hands back: [None], an integer, or a reference
    to a DataFrame on the heap. *)
Inductive pyobj : Type :=
  | PyNone
  | PyInt (n : Z)
  | PyFrame (l : nat).

(** The attributes of a [CSVManager]; [data] refers to a heap object. *)
Record CSVManager : Type := mkCSVManager {
  filepath : string;
  data : nat }.

(** Keyword arguments of [save_changes], passed on to [to_csv]. *)
Inductive kwarg : Type :=
  | KwIndex (b : bool)            (* index=b *)
  | KwUnexpected (kw : string).   (* a keyword [to_csv] does not have *)

Section World.

(** The caller's own state, which the functions it supplies may use, and
    the [read_csv] of the pandas at hand. *)
Context {W : Type} {RD : Reader}.

Record World : Type := mkWorld {
  heap : list DataFrame;       (* DataFrame objects, referred to by position *)
  self : CSVManager;
  stdout : list message;       (* in the order printed *)
  fs : gmap string node;
  caller : W }.

Definition M (A : Type) : Type := World → result A * World.

#[export] Instance M_ret : MRet M := λ A a w, (Ok a, w).
#[export] Instance M_bind : MBind M := λ A B k c w,
  match c w with
  | (Ok a, w') => k a w'
  | (Raise e, w') => (Raise e, w')
  end.

Definition raise {A} (e : exn) : M A := λ w, (Raise e, w).

(** [try: body  except Exception as e: handler] *)
Definition try_except {A} (body : M A) (handler : exn → M A) : M A := λ w,
  match body w with
  | (Ok a, w') => (Ok a, w')
  | (Raise e, w') => handler e w'
  end.

Definition print (m : message) : M () := λ w,
  (Ok (), {| heap := heap w; self := self w; stdout := stdout w ++ [m];
             fs := fs w; caller := caller w |}).

(** A new object on the heap. *)
Definition alloc (d : DataFrame) : M nat := λ w,
  (Ok (length (heap w)),
   {| heap := heap w ++ [d]; self := self w; stdout := stdout w;
      fs := fs w; caller := caller w |}).

(** The object a reference points to. *)
Definition deref (l : nat) : M DataFrame := λ w,
  (Ok (default empty_frame (heap w !! l)), w).

(** In-place change of the object at [l]. *)
Definition mutate (l : nat) (f : DataFrame → DataFrame) : M () := λ w,
  (Ok (), {| heap := alter f l (heap w); self := self w; stdout := stdout w;
             fs := fs w; caller := caller w |}).

Definition get_self : M CSVManager := λ w, (Ok (self w), w).

Definition set_self (s : CSVManager) : M () := λ w,
  (Ok (), {| heap := heap w; self := s; stdout := stdout w;
             fs := fs w; caller := caller w |}).

(** [self.data = l] *)
Definition set_data (l : nat) : M () :=
  s ← get_self; set_self {| filepath := filepath s; data := l |}.

(** A function supplied by the caller: it is given a row (by value: it
    holds no reference into the heap), may use the caller's state, and
    returns a value or raises. *)
Definition callable (B : Type) : Type := Series → W → result B * W.

Definition call {B} (f : callable B) (row : Series) : M B := λ w,
  let '(r, c) := f row (caller w) in
  (r, {| heap := heap w; self := self w; stdout := stdout w;
         fs := fs w; caller := c |}).

(** A function without effects, as a callable. *)
Definition pure_fn {B} (f : Series → B) : callable B := λ row c, (Ok (f row), c).

(** [rows.apply(f, axis=1)]: [f] on each row in turn, collecting the
    results; an exception in [f] ends the loop. *)
Fixpoint apply_rows {B} (f : callable B) (rs : list Series) : M (list B) :=
  match rs with
  | [] => mret []
  | r :: rs' => b ← call f r; bs ← apply_rows f rs'; mret (b :: bs)
  end.

(** [os.path.exists(path)] *)
Definition path_exists (path : string) : M bool := λ w,
  (Ok (bool_decide (is_Some (fs w !! path))), w).

(** [pd.read_csv(path)] and [pd.read_csv(path, index_col=c)] *)
Definition read_csv (path : string) (index_col : option string) : M DataFrame := λ w,
  match fs w !! path with
  | None => (Raise (FileNotFoundError path), w)
  | Some Directory => (Raise (IsADirectoryError path), w)
  | Some (RegularFile text) =>
      match read_text text index_col with
      | inl e => (Raise e, w)
      | inr d => (Ok d, w)
      end
  end.

(** The [index] keyword among the keyword arguments, [True] by default. *)
Fixpoint kw_index (kwargs : list kwarg) : bool :=
  match kwargs with
  | [] => true
  | KwIndex b :: _ => b
  | KwUnexpected _ :: kwargs' => kw_index kwargs'
  end.

Fixpoint kw_unexpected (kwargs : list kwarg) : option string :=
  match kwargs with
  | [] => None
  | KwUnexpected kw :: _ => Some kw
  | KwIndex _ :: kwargs' => kw_unexpected kwargs'
  end.

(** [d.to_csv(path, **kwargs)]: a keyword the method does not have is a
    TypeError; the empty path and a directory cannot be opened for
    writing; otherwise the file is created or replaced.  The file system
    is a flat map in which every path that is no directory can be
    written: this is how pandas writes a plain file name ([simple_name])
    in a directory that allows it; parent directories, permissions and
    failures in the middle of a write are not modelled. *)
Definition to_csv (d : DataFrame) (path : string) (kwargs : list kwarg) : M () := λ w,
  match kw_unexpected kwargs with
  | Some kw => (Raise (TypeError kw), w)
  | None =>
      if decide (path = "") then (Raise (FileNotFoundError path), w)
      else match fs w !! path with
           | Some Directory => (Raise (IsADirectoryError path), w)
           | _ =>
               (Ok (), {| heap := heap w; self := self w; stdout := stdout w;
                          fs := <[path := RegularFile (csv_records (kw_index kwargs) d)]> (fs w);
                          caller := caller w |})
           end
  end.

(** ** The class [CSVManager] *)

(** Truth value of an optional string argument: [None] and [''] are false. *)
Definition truthy (o : option string) : option string :=
  match o with
  | Some s => if decide (s = "") then None else Some s
  | None => None
  end.

Definition _load_csv (index_col : option string) : M nat :=
  s ← get_self;
  found ← path_exists (filepath s);
  if negb found then
    print (WarnFileNotFound (filepath s));;
    alloc empty_frame
  else
    try_except
      (df ← match truthy index_col with
            | Some c => read_csv (filepath s) (Some c)
            | None => read_csv (filepath s) None
            end;
       alloc df)
      (λ e, match e with
            | EmptyDataError =>
                print (WarnFileEmpty (filepath s));;
                alloc empty_frame
            | _ =>
                print (ErrorLoading e);;
                alloc empty_frame
            end).

(** [CSVManager(filepath, index_col)] *)
Definition __init__ (path : string) (index_col : option string) : M () :=
  s ← get_self;
  set_self {| filepath := path; data := data s |};;
  l ← _load_csv index_col;
  set_data l;;
  d ← deref l;
  print (Loaded path (shape d)).

Definition query (condition_func : option (callable bool))
    (cols : option (list string)) : M pyobj :=
  s ← get_self;
  d ← deref (data s);
  if empty d then
    print NoDataToQuery;;
    l ← alloc empty_frame;
    mret (PyFrame l)
  else
    q0 ← alloc d;                                     (* self.data.copy() *)
    q1 ← match condition_func with
         | Some f =>
             qd ← deref q0;
             mask ← apply_rows f (iter_rows qd);
             alloc (getitem_mask mask qd)
         | None => mret q0
         end;
    q2 ← match cols with
         | Some ((_ :: _) as cs) =>
             qd ← deref q1;
             let existing_columns := filter (λ col, col ∈ columns qd) cs in
             (if (length existing_columns <? length cs)%nat then
                print (WarnColumnsIgnored
                         (list_to_set cs ∖ list_to_set existing_columns))
              else mret ());;
             alloc (getitem_columns existing_columns qd)
         | _ => mret q1
         end;
    mret (PyFrame q2).

Definition add_row (row_data : list (string * cell)) : M pyobj :=
  s ← get_self;
  d ← deref (data s);
  n0 ← alloc (frame_of_dict row_data);
  nd ← deref n0;
  n1 ← alloc (reindex_columns (columns d) nd);
  new_row_df ← deref n1;
  l ← alloc (concat_ignore_index d new_row_df);
  set_data l;;
  d' ← deref l;
  print (RowAdded (shape d'));;
  mret PyNone.

(** A value of the [updates] dict: a static value or a function of the row. *)
Inductive update : Type :=
  | Static (v : cell)
  | Computed (f : callable cell).

(** One turn of the loop over [updates.items()]. *)
Definition update_column (labels : list cell) (col : string) (value : update) : M () :=
  s ← get_self;
  d ← deref (data s);
  if has_column col d then
    match value with
    | Computed f =>
        vs ← apply_rows f (row_series d <$> loc_rows labels d);
        mutate (data s) (loc_set_values labels col vs)
    | Static v =>
        mutate (data s) (loc_set_scalar labels col v)
    end
  else
    print (WarnColumnNotFound col).

Fixpoint update_columns (labels : list cell) (updates : list (string * update)) : M () :=
  match updates with
  | [] => mret ()
  | (col, value) :: updates' =>
      update_column labels col value;;
      update_columns labels updates'
  end.

Definition update_data (condition_func : callable bool)
    (updates : list (string * update)) : M pyobj :=
  s ← get_self;
  d ← deref (data s);
  if empty d then
    print NoDataToUpdate;;
    mret PyNone
  else
    rows_to_update_mask ← apply_rows condition_func (iter_rows d);
    let rows_to_update_indices := index (getitem_mask rows_to_update_mask d) in
    match rows_to_update_indices with
    | [] =>
        print NoRowsMatched;;
        mret PyNone
    | _ =>
        update_columns rows_to_update_indices updates;;
        print (Updated (length rows_to_update_indices));;
        mret PyNone
    end.

Definition delete_rows (condition_func : callable bool) : M pyobj :=
  s ← get_self;
  d ← deref (data s);
  if empty d then
    print NoDataToDelete;;
    mret PyNone
  else
    let original_shape := length (rows d) in
    mask ← apply_rows condition_func (iter_rows d);
    let rows_to_keep_mask := negb <$> mask in
    l ← alloc (reset_index_drop (getitem_mask rows_to_keep_mask d));
    set_data l;;
    d' ← deref l;
    let deleted_count := (Z.of_nat original_shape - Z.of_nat (length (rows d')))%Z in
    print (Deleted deleted_count (shape d'));;
    mret PyNone.

Definition save_changes (output_filepath : option string) (kwargs : list kwarg) : M pyobj :=
  s ← get_self;
  let path_to_save := default (filepath s) (truthy output_filepath) in
  try_except
    (d ← deref (data s);
     to_csv d path_to_save kwargs;;
     print (Saved path_to_save))
    (λ e, print (ErrorSaving e));;
  mret PyNone.

End World.

Arguments World : clear implicits.
Arguments M : clear implicits.
Arguments callable : clear implicits.
Arguments update : clear implicits.

(** * What the statements are written with *)

(** ** Worlds *)

(** The table: the DataFrame object [self.data] refers to. *)
Definition table {W} (w : World W) : DataFrame :=
  default empty_frame (heap w !! data (self w)).

(** The object behind a reference. *)
Definition frame_at {W} (w : World W) (l : nat) : DataFrame :=
  default empty_frame (heap w !! l).

(** Number of rows a row function holds for. *)
Definition count_matching (p : Series → bool) (d : DataFrame) : nat :=
  length (filter (λ r, p r = true) (iter_rows d)).

(** A command keeps a relation between the world before and after it. *)
Definition preserves {W A} (R : World W → World W → Prop) (c : M W A) : Prop :=
  ∀ w, R w (c w).2.

(** The world with one more line printed. *)
Definition printed {W} (m : message) (w : World W) : World W :=
  {| heap := heap w; self := self w; stdout := stdout w ++ [m]; fs := fs w;
     caller := caller w |}.

(** The world with the file at [path] created or replaced. *)
Definition written {W} (path : string) (text : list (list string)) (w : World W)
    : World W :=
  {| heap := heap w; self := self w; stdout := stdout w;
     fs := <[path := RegularFile text]> (fs w); caller := caller w |}.

(** The world with one more object on the heap. *)
Definition allocated {W} (d : DataFrame) (w : World W) : World W :=
  {| heap := heap w ++ [d]; self := self w; stdout := stdout w; fs := fs w;
     caller := caller w |}.

(** What [read_csv] does with the file at [self.filepath]. *)
Definition read_outcome {W} {RD : Reader} (index_col : option string) (w : World W)
    : exn + DataFrame :=
  match fs w !! filepath (self w) with
  | None => inl (FileNotFoundError (filepath (self w)))
  | Some Directory => inl (IsADirectoryError (filepath (self w)))
  | Some (RegularFile text) => read_text text (truthy index_col)
  end.

(** The line [_load_csv] prints for an exception of [read_csv]. *)
Definition load_report (path : string) (e : exn) : message :=
  match e with
  | EmptyDataError => WarnFileEmpty path
  | _ => ErrorLoading e
  end.

(** [self.data] refers to an object that exists. *)
Definition valid {W} (w : World W) : Prop :=
  (data (self w) < length (heap w))%nat.

(** ** Querying, adding, deleting, updating *)

(** The frame [query] builds from the table when the predicate is a
    function without effects. *)
Definition query_frame (p : option (Series → bool)) (cols : option (list string))
    (d : DataFrame) : DataFrame :=
  if empty d then empty_frame
  else
    let q1 := match p with
              | Some f => getitem_mask (f <$> iter_rows d) d
              | None => d
              end in
    match cols with
    | Some ((_ :: _) as cs) =>
        getitem_columns (filter (λ col, col ∈ columns q1) cs) q1
    | _ => q1
    end.

(** A call of a caller's function changes the caller's state only. *)
Definition caller_only {W} (w w' : World W) : Prop :=
  heap w' = heap w ∧ self w' = self w ∧ fs w' = fs w ∧ stdout w' = stdout w.

(** What [query] leaves alone: the manager, the files, and every object
    that was on the heap. *)
Definition query_frame_rel {W} (w w' : World W) : Prop :=
  heap w `prefix_of` heap w' ∧ self w' = self w ∧ fs w' = fs w.

(** A command that returns a reference returns one to a new object. *)
Definition returns_fresh {W} (c : M W pyobj) : Prop :=
  ∀ w l, (c w).1 = Ok (PyFrame l) →
    (length (heap w) ≤ l < length (heap (c w).2))%nat.

(** The cells [add_row] gives the new row: for each column of the table,
    the value the dict has under that name, or a missing value. *)
Definition conformed_cells (row_data : list (string * cell)) (cols : list string)
    : list cell :=
  (λ c, default Null (dict_get c row_data)) <$> cols.

(** The rows a row function does not hold for, in their order. *)
Definition surviving (p : Series → bool) (d : DataFrame) : list (cell * list cell) :=
  filter (λ r, p (row_series d r) = false) (rows d).

(** An entry of [updates] whose function, if any, has no effects. *)
Inductive pure_update : Type :=
  | PStatic (v : cell)
  | PComputed (f : Series → cell).

Definition lift_update {W} (u : pure_update) : update W :=
  match u with
  | PStatic v => Static v
  | PComputed f => Computed (pure_fn f)
  end.

Definition lift_updates {W} (ups : list (string * pure_update))
    : list (string * update W) :=
  prod_map id lift_update <$> ups.

(** The labels [update_data] selects: those of the rows the predicate holds
    for, taken on the table as it is when the call starts. *)
Definition selected_labels (p : Series → bool) (d : DataFrame) : list cell :=
  index (getitem_mask (p <$> iter_rows d) d).





(** What [update_data] leaves alone whatever the functions it is given do:
    the manager, the files, and the column labels of every object. *)
Definition same_schema {W} (w w' : World W) : Prop :=
  self w' = self w ∧ fs w' = fs w ∧ columns <$> heap w' = columns <$> heap w.


(** A plain file name: not empty, not [.] or [..], and without a path
    separator, so that it names an entry of the current directory. *)
Definition simple_name (path : string) : bool :=
  negb (bool_decide (path ∈ [""; "."; ".."]))
  && forallb (λ a, negb (bool_decide (a ∈ ["/"; "\"; "000"]%char)))
             (list_ascii_of_string path).

(** ** Tables that survive their text *)

Definition is_boolean (c : cell) : bool :=
  match c with Boolean _ => true | _ => false end.



(** Column [j] of a frame. *)
Definition column_cells (j : nat) (d : DataFrame) : list cell :=
  (λ r, default Null (r.2 !! j)) <$> rows d.


(** ** Values that fit a column *)

Definition is_text (c : cell) : bool :=
  match c with Str _ => true | _ => false end.

(** Whether a value can join the cells of a column with pandas neither
    re-typing the column ([concat] turns an integer column that receives a
    missing value into floating point, and [True] that joins integers
    into 1) nor, from version 3 on, refusing the value (a write through
    [.loc] of a value the column type cannot hold raises TypeError), as
    far as the cells show the type of the column: an integer of 64 bits
    beside cells that are all integers, a boolean beside cells that are
    all booleans, text or a missing value in a column that holds some
    text.  The frames of this model keep whatever value they are given:
    what they say about the value of a cell is meant for values that
    fit. *)
Definition fits (v : cell) (col : list cell) : bool :=
  match v with
  | Num _ => is_num v && negb (bool_decide (col = [])) && forallb is_num col
  | Boolean _ => negb (bool_decide (col = [])) && forallb is_boolean col
  | Str _ | Null => existsb is_text col
  end.

(** Every value [add_row] puts under a column of the table fits it. *)
Definition row_fits (row_data : list (string * cell)) (d : DataFrame) : bool :=
  forallb (λ j, fits (default Null (conformed_cells row_data (columns d) !! j))
                     (column_cells j d))
          (seq 0 (length (columns d))).




(** ** Invariants of a managed table *)

(** The manager refers to an object that exists, and every row of its
    table has one cell per column. *)
Definition well_formed {W} (w : World W) : Prop :=
  valid w ∧ aligned (table w).

(** The index is the default one: rows labelled 0, 1, 2, ... *)
Definition default_index (d : DataFrame) : Prop :=
  index d = range_index (length (rows d)).

(** What of a frame an in-place write of cells cannot change: the name of
    the index, the column labels, the row labels, and how many cells each
    row has. *)
Definition frame_shape (d : DataFrame)
    : option string * list string * list cell * list nat :=
  (index_name d, columns d, index d, length <$> cells d).

(** The manager, the files and the shape of every object are the same. *)
Definition same_shape {W} (w w' : World W) : Prop :=
  self w' = self w ∧ fs w' = fs w
  ∧ frame_shape <$> heap w' = frame_shape <$> heap w.

(** The frame a call returned (the empty frame if it returned none). *)
Definition result_frame {W} (out : result pyobj * World W) : DataFrame :=
  match out.1 with
  | Ok (PyFrame l) => frame_at out.2 l
  | _ => empty_frame
  end.

(** A row function that does not look at the label of the row. *)
Definition label_blind {B} (f : Series → B) : Prop :=
  ∀ l l' its, f {| name := l; items := its |} = f {| name := l'; items := its |}.


(** The world after a run of [add_row] calls, one per dict. *)
Definition after_add_rows {W} (w : World W)
    (dicts : list (list (string * cell))) : World W :=
  foldl (λ w' row_data, (add_row row_data w').2) w dicts.


(** The table and the lines [_load_csv] produces from a file system. *)
Definition load_outcome {RD : Reader} (f : gmap string node) (path : string)
    (index_col : option string) : DataFrame * list message :=
  match f !! path with
  | None => (empty_frame, [WarnFileNotFound path])
  | Some Directory => (empty_frame, [ErrorLoading (IsADirectoryError path)])
  | Some (RegularFile text) =>
      match read_text text (truthy index_col) with
      | inl e => (empty_frame, [load_report path e])
      | inr d => (d, [])
      end
  end.

(** ** Concrete tables *)

Definition people : DataFrame :=
  {| index_name := None;
     columns := ["name"; "age"];
     rows := [(Num 0, [Str "a"; Num 30]); (Num 1, [Str "b"; Num 25])] |}.

(** A manager holding [people], loaded from [people.csv]; [out] is a
    directory. *)
Definition w_people : World nat :=
  {| heap := [people];
     self := {| filepath := "people.csv"; data := 0 |};
     stdout := [];
     fs := {[ "out" := Directory ]};
     caller := 0%nat |}.

(** A manager whose table has columns but no rows. *)
Definition w_no_rows : World nat :=
  {| heap := [{| index_name := None; columns := ["name"; "age"]; rows := [] |}];
     self := {| filepath := "people.csv"; data := 0 |};
     stdout := [];
     fs := ∅;
     caller := 0%nat |}.

(** A manager whose file is missing. *)
Definition w_missing : World nat :=
  {| heap := [];
     self := {| filepath := "people.csv"; data := 0 |};
     stdout := [];
     fs := ∅;
     caller := 0%nat |}.



(** [row[col] >= n] *)
Definition at_least (col : string) (n : Z) (row : Series) : bool :=
  match getitem row col with
  | Some (Num z) => (n <=? z)%Z
  | _ => false
  end.


(** A predicate that counts its calls in the caller's state and raises. *)
Definition failing : callable nat bool :=
  λ _ n, (Raise (UserException "boom"), S n).

(** A manager whose file has, after its first data record, a record
    longer than the header. *)
Definition w_ragged : World nat :=
  {| heap := [];
     self := {| filepath := "people.csv"; data := 0 |};
     stdout := [];
     fs := {[ "people.csv" :=
                RegularFile [["name"; "age"]; ["a"; "30"]; ["b"; "25"; "x"]] ]};
     caller := 0%nat |}.

(** A manager whose file has no records. *)
Definition w_blank : World nat :=
  {| heap := [];
     self := {| filepath := "people.csv"; data := 0 |};
     stdout := [];
     fs := {[ "people.csv" := RegularFile [] ]};
     caller := 0%nat |}.

(** A manager whose table has two rows and no columns, as two [add_row]
    calls leave the table of a manager made on a missing file. *)
Definition w_no_columns : World nat :=
  {| heap := [{| index_name := None; columns := [];
                 rows := [(Num 0, []); (Num 1, [])] |}];
     self := {| filepath := "people.csv"; data := 0 |};
     stdout := [];
     fs := ∅;
     caller := 0%nat |}.




(** No manager yet; the file of [people] is on disk. *)
Definition w_on_disk : World nat :=
  {| heap := [];
     self := {| filepath := ""; data := 0 |};
     stdout := [];
     fs := {[ "people.csv" := RegularFile [["name"; "age"]; ["a"; "30"]; ["b"; "25"]] ]};
     caller := 0%nat |}.

(** * Properties *)

(** ** Reasoning about the monad *)

Section Reasoning.

Context {W : Type} {RD : Reader}.
Implicit Types (w : World W).

Lemma world_eta w :
  {| heap := heap w; self := self w; stdout := stdout w; fs := fs w;
     caller := caller w |} = w.
Proof. by destruct w. Qed.

Section Preserves.
Context (R : World W → World W → Prop) `{!Reflexive R, !Transitive R}.

Lemma preserves_ret {A} (a : A) : preserves R (mret a : M W A).
Proof. intros w. apply reflexivity. Qed.

Lemma preserves_raise {A} e : preserves R (raise e : M W A).
Proof. intros w. apply reflexivity. Qed.

Lemma preserves_bind {A B} (c : M W A) (k : A → M W B) :
  preserves R c → (∀ a, preserves R (k a)) → preserves R (c ≫= k).
Proof.
  intros Hc Hk w. unfold mbind, M_bind.
  specialize (Hc w). destruct (c w) as [[a|e] w1]; simpl in *; [|done].
  etrans; [exact Hc | apply Hk].
Qed.

Lemma preserves_try {A} (c : M W A) (h : exn → M W A) :
  preserves R c → (∀ e, preserves R (h e)) → preserves R (try_except c h).
Proof.
  intros Hc Hh w. unfold try_except.
  specialize (Hc w). destruct (c w) as [[a|e] w1]; simpl in *; [done|].
  etrans; [exact Hc | apply Hh].
Qed.

Lemma preserves_pure {A} (c : M W A) :
  (∀ w, (c w).2 = w) → preserves R c.
Proof. intros H w. rewrite H. apply reflexivity. Qed.

Lemma preserves_deref l : preserves R (deref l : M W _).
Proof. by apply preserves_pure. Qed.

Lemma preserves_get_self : preserves R (get_self : M W _).
Proof. by apply preserves_pure. Qed.

Lemma preserves_path_exists p : preserves R (path_exists p : M W _).
Proof. by apply preserves_pure. Qed.

Lemma preserves_read_csv p ic : preserves R (read_csv p ic : M W _).
Proof.
  apply preserves_pure. intros w. unfold read_csv.
  destruct (fs w !! p) as [[|text]|]; try done.
  by destruct (read_text text ic).
Qed.

Lemma preserves_apply_rows {B} (f : callable W B) rs :
  (∀ r, preserves R (call f r)) → preserves R (apply_rows f rs).
Proof.
  intros Hf. induction rs as [|r rs IH]; simpl.
  - apply preserves_ret.
  - apply preserves_bind; [apply Hf|]. intros b.
    apply preserves_bind; [apply IH|]. intros bs. apply preserves_ret.
Qed.
End Preserves.

(** A function without effects is applied to every row and leaves the
    world alone. *)
Lemma apply_rows_pure {B} (f : Series → B) rs w :
  apply_rows (pure_fn f) rs w = (Ok (f <$> rs), w).
Proof.
  revert w. induction rs as [|r rs IH]; intros w; [done|].
  simpl. unfold mbind, M_bind, call, pure_fn at 1. simpl.
  rewrite world_eta, IH. done.
Qed.

End Reasoning.

(** ** Saving *)

Section Saving.

Context {W : Type}.
Implicit Types (w : World W).

(** [to_csv] either writes the whole file or raises and leaves the world as
    it was. *)
Lemma to_csv_cases d path kwargs w :
  (to_csv d path kwargs w = (Ok (), written path (csv_records (kw_index kwargs) d) w))
  ∨ (∃ e, to_csv d path kwargs w = (Raise e, w)).
Proof.
  unfold to_csv. destruct (kw_unexpected kwargs); [right; eauto|].
  case_decide; [right; eauto|].
  destruct (fs w !! path) as [[|text]|]; [right; eauto|left; done..].
Qed.

(** [save_changes] in terms of the one [to_csv] call it makes. *)
Lemma save_changes_unfold output_filepath kwargs w :
  let path := default (filepath (self w)) (truthy output_filepath) in
  save_changes output_filepath kwargs w =
    match to_csv (table w) path kwargs w with
    | (Ok _, w1) => (Ok PyNone, printed (Saved path) w1)
    | (Raise e, w1) => (Ok PyNone, printed (ErrorSaving e) w1)
    end.
Proof.
  simpl. unfold save_changes, try_except, mbind, M_bind, get_self, deref, table.
  simpl.
  destruct (to_csv _ _ kwargs w) as [[u|e] w1]; done.
Qed.

End Saving.

(** C9: [save_changes] never raises and returns [None] whether or not the
    file was written; an exception of the write is caught and only
    printed. *)
Theorem save_changes_returns_none {W} (w : World W)
    (output_filepath : option string) (kwargs : list kwarg) :
  (save_changes output_filepath kwargs w).1 = Ok PyNone
  ∧ ∀ e w1,
      to_csv (table w) (default (filepath (self w)) (truthy output_filepath))
             kwargs w = (Raise e, w1) →
      save_changes output_filepath kwargs w
      = (Ok PyNone, printed (ErrorSaving e) w).
Proof.
  pose proof (save_changes_unfold output_filepath kwargs w) as Hs.
  simpl in Hs. split.
  - rewrite Hs. by destruct (to_csv _ _ kwargs w) as [[u|e] w1].
  - intros e w1 Hraise. rewrite Hs.
    destruct (to_csv_cases (table w)
                (default (filepath (self w)) (truthy output_filepath))
                kwargs w) as [Hok|[e' He']].
    + congruence.
    + rewrite He' in Hraise |- *. congruence.
Qed.

(** C8, as the code has it: without a destination [save_changes] does
    what it does with [self.filepath] as destination; written to a plain
    file name that is no directory, the file holds the records of the
    table; a write that fails is caught, printed as [ErrorSaving], and
    the call still returns [None]; in every case the table, the heap and
    the manager are as before. *)
Theorem save_changes_default_path_and_failure {W} (w : World W)
    (output_filepath : option string) (kwargs : list kwarg) :
  let path := default (filepath (self w)) (truthy output_filepath) in
  let out := save_changes output_filepath kwargs w in
  save_changes None kwargs w = save_changes (Some (filepath (self w))) kwargs w
  ∧ (output_filepath = None → path = filepath (self w))
  ∧ heap out.2 = heap w ∧ self out.2 = self w ∧ table out.2 = table w
  ∧ (simple_name path = true → fs w !! path ≠ Some Directory →
     kw_unexpected kwargs = None →
       out = (Ok PyNone,
              printed (Saved path)
                (written path (csv_records (kw_index kwargs) (table w)) w)))
  ∧ (∀ e w1, to_csv (table w) path kwargs w = (Raise e, w1) →
       out.1 = Ok PyNone ∧ stdout out.2 = stdout w ++ [ErrorSaving e]).
Proof.
  intros path out. subst out.
  assert (save_changes None kwargs w
          = save_changes (Some (filepath (self w))) kwargs w) as Hsame.
  { rewrite !save_changes_unfold. simpl.
    by destruct (decide (filepath (self w) = "")) as [->|_]. }
  split; [done|].
  pose proof (save_changes_unfold output_filepath kwargs w) as Hs.
  simpl in Hs. fold path in Hs. rewrite Hs. clear Hs.
  destruct (to_csv_cases (table w) path kwargs w) as [Hok|[e He]].
  - rewrite Hok. split_and!; try done. by intros ->.
  - rewrite He. split_and!; try done; try (by intros ->).
    + intros Hname Hdir Hkw. revert He. unfold to_csv. rewrite Hkw.
      destruct (decide (path = "")) as [Hp|_].
      { rewrite Hp in Hname. done. }
      by destruct (fs w !! path) as [[|text]|].
    + by intros e' w1 [= -> _].
Qed.

(** ** Loading *)

Section Loading.

Context {W : Type} {RD : Reader}.
Implicit Types (w : World W).

Lemma read_csv_outcome index_col w :
  read_csv (filepath (self w)) (truthy index_col) w =
    match read_outcome index_col w with
    | inl e => (Raise e, w)
    | inr d => (Ok d, w)
    end.
Proof.
  unfold read_csv, read_outcome.
  by destruct (fs w !! filepath (self w)) as [[|text]|].
Qed.

Lemma load_csv_unfold index_col w :
  _load_csv index_col w =
    match fs w !! filepath (self w) with
    | None =>
        (Ok (length (heap w)),
         allocated empty_frame (printed (WarnFileNotFound (filepath (self w))) w))
    | Some _ =>
        match read_outcome index_col w with
        | inr d => (Ok (length (heap w)), allocated d w)
        | inl e =>
            (Ok (length (heap w)),
             allocated empty_frame (printed (load_report (filepath (self w)) e) w))
        end
    end.
Proof.
  unfold _load_csv, mbind, M_bind, get_self, path_exists. simpl.
  destruct (fs w !! filepath (self w)) as [nd|] eqn:Hfs; simpl; [|done].
  unfold try_except, read_outcome, read_csv. rewrite Hfs.
  destruct (truthy index_col); rewrite Hfs; (destruct nd as [|text]; [done|]);
    (destruct (read_text text _) as [e|d]; [by destruct e | done]).
Qed.

End Loading.

(** C6: [_load_csv] never raises, and neither does the constructor that
    calls it, whatever [read_csv] does.  It always returns a reference to
    one new DataFrame.  A missing source, a source [read_csv] finds empty
    (as it does a file without records) and a source on which [read_csv]
    raises anything else all give the empty DataFrame (no columns, no
    rows) and one printed line saying why. *)
Theorem load_csv_never_raises {W} {RD : Reader} (w : World W)
    (index_col : option string) :
  let path := filepath (self w) in
  let out := _load_csv index_col w in
  out.1 = Ok (length (heap w))
  ∧ (∃ d, heap out.2 = heap w ++ [d])
  ∧ (∀ p, (__init__ p index_col w).1 = Ok ())
  ∧ self out.2 = self w ∧ fs out.2 = fs w ∧ caller out.2 = caller w
  ∧ (fs w !! path = None →
       heap out.2 = heap w ++ [empty_frame]
       ∧ stdout out.2 = stdout w ++ [WarnFileNotFound path])
  ∧ (∀ text, fs w !! path = Some (RegularFile text) →
       agrees_with_model → filter (λ r, r ≠ []) text = [] →
       heap out.2 = heap w ++ [empty_frame]
       ∧ stdout out.2 = stdout w ++ [WarnFileEmpty path])
  ∧ (∀ e w1, is_Some (fs w !! path) →
       read_csv path (truthy index_col) w = (Raise e, w1) →
       heap out.2 = heap w ++ [empty_frame]
       ∧ shape (frame_at out.2 (length (heap w))) = (0, 0)%nat
       ∧ stdout out.2 = stdout w ++ [load_report path e]).
Proof.
  intros path out. subst out path. rewrite load_csv_unfold.
  assert (∀ (d : DataFrame) (h : list DataFrame),
            default empty_frame ((h ++ [d]) !! length h) = d) as Hlast.
  { intros d h. by rewrite list_lookup_middle. }
  split_and!.
  - destruct (fs w !! _); [destruct (read_outcome _ _)|]; done.
  - destruct (fs w !! _); [destruct (read_outcome _ _)|]; simpl; eauto.
  - intros p. unfold __init__, mbind, M_bind, get_self, set_self. simpl.
    rewrite load_csv_unfold. simpl.
    destruct (fs w !! p); [destruct (read_outcome _ _)|]; done.
  - destruct (fs w !! _); [destruct (read_outcome _ _)|]; done.
  - destruct (fs w !! _); [destruct (read_outcome _ _)|]; done.
  - destruct (fs w !! _); [destruct (read_outcome _ _)|]; done.
  - by intros ->.
  - intros text Hfs Hagree Hblank.
    unfold read_outcome. rewrite Hfs.
    rewrite (Hagree text (truthy index_col) (inl EmptyDataError)); [done|].
    unfold parse_csv. by rewrite Hblank.
  - intros e w1 [nd Hfs] Hread. rewrite read_csv_outcome in Hread.
    rewrite Hfs.
    destruct (read_outcome index_col w) as [e'|d]; [|done].
    injection Hread as -> ->.
    unfold frame_at. simpl. by rewrite Hlast.
Qed.

(** ** Empty tables *)

(** C10: on a table without rows, [query], [update_data] and
    [delete_rows] print their notice and return at once.  Whatever the
    function supplied as predicate would do (raise, change the caller's
    state), it is not called: the outcome does not depend on it and the
    caller's state is as before. *)
Theorem empty_table_skips_predicate {W} (w : World W)
    (Hrows : rows (table w) = []) :
  (∀ condition_func cols,
     query condition_func cols w
     = (Ok (PyFrame (length (heap w))),
        allocated empty_frame (printed NoDataToQuery w)))
  ∧ (∀ condition_func updates,
       update_data condition_func updates w
       = (Ok PyNone, printed NoDataToUpdate w))
  ∧ (∀ condition_func,
       delete_rows condition_func w = (Ok PyNone, printed NoDataToDelete w)).
Proof.
  unfold table in Hrows.
  assert (empty (default empty_frame (heap w !! data (self w))) = true) as He.
  { unfold empty. by rewrite Hrows. }
  split_and!; intros.
  - unfold query, mbind, M_bind, get_self, deref. simpl. by rewrite He.
  - unfold update_data, mbind, M_bind, get_self, deref. simpl. by rewrite He.
  - unfold delete_rows, mbind, M_bind, get_self, deref. simpl. by rewrite He.
Qed.

(** ** Querying *)

Section Querying.

Context {W : Type}.
Implicit Types (w : World W).

#[local] Instance caller_only_refl : Reflexive (caller_only (W:=W)).
Proof. by intros w. Qed.

#[local] Instance caller_only_trans : Transitive (caller_only (W:=W)).
Proof. intros w1 w2 w3 (?&?&?&?) (?&?&?&?). split_and!; congruence. Qed.

Lemma call_caller_only {B} (f : callable W B) r : preserves caller_only (call f r).
Proof. intros w. unfold call. by destruct (f r (caller w)). Qed.

Lemma apply_rows_caller_only {B} (f : callable W B) rs w :
  caller_only w (apply_rows f rs w).2.
Proof.
  apply (preserves_apply_rows caller_only). intros r. apply call_caller_only.
Qed.

#[local] Instance query_frame_rel_refl : Reflexive (query_frame_rel (W:=W)).
Proof. by intros w. Qed.

#[local] Instance query_frame_rel_trans : Transitive (query_frame_rel (W:=W)).
Proof.
  intros w1 w2 w3 (?&?&?) (?&?&?). split_and!; [by etrans|congruence..].
Qed.

Lemma alloc_query_frame_rel d : preserves query_frame_rel (alloc d : M W _).
Proof. intros w. split_and!; [by apply prefix_app_r|done..]. Qed.

Lemma print_query_frame_rel m : preserves query_frame_rel (print m : M W _).
Proof. by intros w. Qed.

Lemma call_query_frame_rel {B} (f : callable W B) r :
  preserves query_frame_rel (call f r).
Proof. intros w. unfold call. by destruct (f r (caller w)). Qed.

Lemma query_frame_rel_query cf cols :
  preserves query_frame_rel (query (W:=W) cf cols).
Proof.
  unfold query.
  apply preserves_bind; [apply _ | apply preserves_get_self, _ |]. intros s.
  apply preserves_bind; [apply _ | apply preserves_deref, _ |]. intros d.
  destruct (empty d).
  - apply preserves_bind; [apply _ | apply print_query_frame_rel |]. intros _.
    apply preserves_bind; [apply _ | apply alloc_query_frame_rel |]. intros l.
    apply preserves_ret, _.
  - apply preserves_bind; [apply _ | apply alloc_query_frame_rel |]. intros q0.
    apply preserves_bind; [apply _ | |].
    { destruct cf as [f|]; [|apply preserves_ret, _].
      apply preserves_bind; [apply _ | apply preserves_deref, _ |]. intros qd.
      apply preserves_bind; [apply _ | |].
      - apply preserves_apply_rows; [apply _..|]. intros r.
        apply call_query_frame_rel.
      - intros mask. apply alloc_query_frame_rel. }
    intros q1.
    apply preserves_bind; [apply _ | |]; [|intros q2; apply preserves_ret, _].
    destruct cols as [[|c cs]|]; try apply preserves_ret, _.
    apply preserves_bind; [apply _ | apply preserves_deref, _ |]. intros qd.
    apply preserves_bind; [apply _ | |]; [|intros _; apply alloc_query_frame_rel].
    case_match; [apply print_query_frame_rel | apply preserves_ret, _].
Qed.

End Querying.

Section QueryResult.

Context {W : Type}.
Implicit Types (w : World W).

Lemma query_returns_fresh cf cols : returns_fresh (query (W:=W) cf cols).
Proof.
  intros w l. unfold query, mbind, M_bind, get_self, deref. simpl.
  destruct (empty _).
  { simpl. intros [= <-]. rewrite length_app. simpl. lia. }
  simpl. destruct cf as [f|]; simpl.
  - rewrite list_lookup_middle by done. simpl.
    set (w1 := {| heap := heap w ++ _ |}).
    pose proof (apply_rows_caller_only f
                  (iter_rows (default empty_frame (heap w !! data (self w)))) w1)
      as (Hh & _).
    destruct (apply_rows f _ w1) as [[mask|e] w2]; simpl in *; [|done].
    destruct cols as [[|c cs]|]; simpl; try destruct (_ <? _)%nat; simpl;
      intros [= Hl]; rewrite <- Hl, ?length_app, ?Hh, ?length_app; simpl; lia.
  - destruct cols as [[|c cs]|]; simpl; try destruct (_ <? _)%nat; simpl;
      intros [= Hl]; rewrite <- Hl, ?length_app; simpl; lia.
Qed.

(** With a predicate that has no effects, [query] returns a reference to a
    new frame holding [query_frame] of the table. *)
Lemma query_pure_returns (p : option (Series → bool)) cols w :
  ∃ l, (query (pure_fn <$> p) cols w).1 = Ok (PyFrame l)
       ∧ heap (query (pure_fn <$> p) cols w).2 !! l
         = Some (query_frame p cols (table w)).
Proof.
  unfold query, query_frame, table, mbind, M_bind, get_self, deref. simpl.
  destruct (empty _).
  { simpl. eexists. split; [done|]. by rewrite list_lookup_middle. }
  simpl. destruct p as [f|]; simpl.
  - rewrite list_lookup_middle by done. simpl.
    rewrite apply_rows_pure. simpl.
    destruct cols as [[|c cs]|]; simpl; try destruct (_ <? _)%nat; simpl;
      (eexists; split; [done|]);
      rewrite ?list_lookup_middle by (by rewrite ?length_app); done.
  - destruct cols as [[|c cs]|]; simpl; try destruct (_ <? _)%nat; simpl;
      (eexists; split; [done|]);
      rewrite ?list_lookup_middle by (by rewrite ?length_app); done.
Qed.

End QueryResult.

(** C5: [query] changes neither the manager nor any object that was on the
    heap, so the table has the rows, columns and cells it had; the frame
    it returns is a new object, not the table and not any object that
    existed before; and asking twice with the same arguments (a predicate
    without effects) gives two distinct objects with equal contents. *)
Theorem query_is_pure {W} (w : World W) (Hvalid : valid w)
    (condition_func : option (callable W bool)) (cols : option (list string)) :
  let out := query condition_func cols w in
  self out.2 = self w
  ∧ table out.2 = table w
  ∧ heap w `prefix_of` heap out.2
  ∧ (∀ l, out.1 = Ok (PyFrame l) →
       l ≠ data (self w) ∧ heap w !! l = None ∧ is_Some (heap out.2 !! l))
  ∧ (∀ p : option (Series → bool), condition_func = pure_fn <$> p →
       let again := query condition_func cols out.2 in
       ∃ l1 l2,
         out.1 = Ok (PyFrame l1) ∧ again.1 = Ok (PyFrame l2) ∧ l1 ≠ l2
         ∧ heap again.2 !! l1 = Some (query_frame p cols (table w))
         ∧ heap again.2 !! l2 = Some (query_frame p cols (table w))
         ∧ table again.2 = table w).
Proof.
  intros out. subst out.
  assert (∀ (cf : option (callable W bool)) (w0 : World W), valid w0 →
            self (query cf cols w0).2 = self w0
            ∧ table (query cf cols w0).2 = table w0
            ∧ valid (query cf cols w0).2
            ∧ heap w0 `prefix_of` heap (query cf cols w0).2) as Hframe.
  { intros cf w0 Hv.
    destruct (query_frame_rel_query cf cols w0) as (Hpre & Hself & _).
    split_and!; [done| |  |done].
    - unfold table. rewrite Hself.
      destruct (lookup_lt_is_Some_2 _ _ Hv) as [d Hd].
      by rewrite (prefix_lookup_Some _ _ _ _ Hd Hpre), Hd.
    - unfold valid in *. rewrite Hself.
      apply prefix_length in Hpre. lia. }
  destruct (Hframe condition_func w Hvalid) as (Hself & Htable & Hvalid' & Hpre).
  split_and!; try done.
  - intros l Hl. apply query_returns_fresh in Hl. unfold valid in Hvalid.
    split_and!; [lia| |].
    + apply lookup_ge_None. lia.
    + apply lookup_lt_is_Some. lia.
  - intros p -> again. subst again.
    destruct (query_pure_returns p cols w) as (l1 & Hl1 & Hd1).
    set (w1 := (query (pure_fn <$> p) cols w).2) in *.
    destruct (query_pure_returns p cols w1) as (l2 & Hl2 & Hd2).
    destruct (Hframe (pure_fn <$> p) w1 Hvalid') as (_ & Htable2 & _ & Hpre2).
    exists l1, l2. split_and!; try done.
    + apply query_returns_fresh in Hl2.
      apply lookup_lt_Some in Hd1. lia.
    + by apply (prefix_lookup_Some _ _ _ _ Hd1).
    + by rewrite Hd2, Htable.
    + by rewrite Htable2.
Qed.

(** ** Adding a row *)

Lemma locate_from_S {A} `{EqDecision A} i (x : A) l :
  locate_from (S i) x l = S <$> locate_from i x l.
Proof.
  revert i. induction l as [|y l IH]; intros i; simpl; [done|].
  case_decide; simpl; by rewrite IH.
Qed.

Lemma reindex_cell_dict row_data c :
  reindex_cell (fst <$> row_data) (snd <$> row_data) c
  = default Null (dict_get c row_data).
Proof.
  unfold reindex_cell, locate.
  induction row_data as [|[k v] kvs IH]; simpl; [done|].
  case_decide; [done|].
  rewrite locate_from_S, <- IH. clear IH.
  by destruct (locate_from 0 c _).
Qed.

Lemma renumber_cells rs : snd <$> renumber rs = snd <$> rs.
Proof.
  unfold renumber. apply snd_zip.
  unfold range_index. by rewrite !length_fmap, length_seq.
Qed.

Lemma renumber_index rs : fst <$> renumber rs = range_index (length rs).
Proof.
  unfold renumber. apply fst_zip.
  unfold range_index. by rewrite !length_fmap, length_seq.
Qed.

Lemma renumber_length rs : length (renumber rs) = length rs.
Proof.
  unfold renumber, range_index.
  rewrite length_zip, !length_fmap, length_seq. lia.
Qed.

(** The table [add_row] leaves, and what else it does. *)
Lemma add_row_outcome {W} (w : World W) (row_data : list (string * cell)) :
  let out := add_row row_data w in
  let d := table w in
  out.1 = Ok PyNone
  ∧ table out.2
    = {| index_name := None;
         columns := columns d;
         rows := renumber (rows d ++ [(Num 0, conformed_cells row_data (columns d))]) |}
  ∧ heap w `prefix_of` heap out.2
  ∧ stdout out.2 = stdout w ++ [RowAdded (S (length (rows d)), length (columns d))].
Proof.
  intros out d. subst out d.
  unfold add_row, mbind, M_bind, get_self, deref, set_data, table.
  simpl.
  set (d := default empty_frame (heap w !! data (self w))).
  rewrite !list_lookup_middle by done.
  simpl.
  unfold concat_ignore_index. simpl.
  rewrite decide_True by done. simpl.
  unfold shape. simpl. rewrite renumber_length, length_app. simpl.
  assert (reindex_cell (fst <$> row_data) (snd <$> row_data) <$> columns d
          = conformed_cells row_data (columns d)) as ->.
  { apply list_fmap_ext. intros _ c _. apply reindex_cell_dict. }
  split_and!; try done.
  - rewrite <- !(assoc (++)). by apply prefix_app_r.
  - do 4 f_equal. lia.
Qed.


(** ** Deleting rows *)

Lemma select_mask_negb {A} (q : A → bool) (l : list A) :
  select_mask (negb <$> (q <$> l)) l = filter (λ x, q x = false) l.
Proof.
  induction l as [|x l IH]; [done|].
  rewrite !fmap_cons, filter_cons. cbn [select_mask].
  destruct (q x); cbn [negb].
  - by rewrite decide_False.
  - by rewrite decide_True, IH.
Qed.

Lemma filter_split_length {A} (q : A → bool) (l : list A) :
  (length (filter (λ x, q x = true) l)
   + length (filter (λ x, q x = false) l) = length l)%nat.
Proof.
  induction l as [|x l IH]; [done|].
  rewrite !filter_cons. repeat case_decide; simpl; try lia.
  - congruence.
  - destruct (q x); congruence.
Qed.

Lemma filter_fmap_bool {A B} (f : A → B) (q : B → bool) (l : list A) :
  filter (λ y, q y = true) (f <$> l) = f <$> filter (λ x, q (f x) = true) l.
Proof.
  induction l as [|x l IH]; [done|].
  rewrite fmap_cons, !filter_cons. repeat case_decide; try done.
  by rewrite fmap_cons, IH.
Qed.

Lemma count_matching_surviving p d :
  (count_matching p d + length (surviving p d) = length (rows d))%nat.
Proof.
  unfold count_matching, surviving, iter_rows.
  rewrite <- (filter_split_length (λ r, p (row_series d r)) (rows d)).
  by rewrite filter_fmap_bool, length_fmap.
Qed.

(** C3, as the code has it: on a table with at least one row and one
    column, [delete_rows] with a predicate without effects returns [None]
    and prints the number of rows deleted, which is the number of rows the
    predicate holds for; the new table has that many rows fewer, the same
    columns, and the other rows with their cells in their original order,
    numbered from 0 without gaps. *)
Theorem delete_rows_compacts {W} (w : World W) (p : Series → bool)
    (Hdata : empty (table w) = false) :
  let out := delete_rows (pure_fn p) w in
  let n := count_matching p (table w) in
  out.1 = Ok PyNone
  ∧ stdout out.2 = stdout w ++ [Deleted (Z.of_nat n) (shape (table out.2))]
  ∧ length (rows (table out.2)) = (length (rows (table w)) - n)%nat
  ∧ columns (table out.2) = columns (table w)
  ∧ cells (table out.2) = snd <$> surviving p (table w)
  ∧ index (table out.2) = range_index (length (rows (table w)) - n)
  ∧ heap w `prefix_of` heap out.2.
Proof.
  intros out n. subst out n.
  pose proof (count_matching_surviving p (table w)) as Hcount.
  revert Hdata Hcount.
  unfold delete_rows, mbind, M_bind, get_self, deref, set_data, table.
  simpl.
  set (d := default empty_frame (heap w !! data (self w))).
  intros -> Hcount. simpl.
  rewrite apply_rows_pure. simpl.
  rewrite !list_lookup_middle by done. simpl.
  unfold iter_rows. rewrite <- (list_fmap_compose (row_series d) p).
  unfold cells, index, shape, reset_index_drop, getitem_mask. simpl.
  rewrite (select_mask_negb (p ∘ row_series d)).
  change (filter _ (rows d)) with (surviving p d).
  rewrite renumber_cells, renumber_index, renumber_length.
  split_and!; try done.
  - do 3 f_equal. lia.
  - lia.
  - f_equal. lia.
  - by apply prefix_app_r.
Qed.

(** ** Updating *)

Section Updating.

Context {W : Type}.
Implicit Types (w : World W).

Lemma set_cell_columns col v d i : columns (set_cell col v d i) = columns d.
Proof. done. Qed.





#[local] Instance same_schema_refl : Reflexive (same_schema (W:=W)).
Proof. by intros w. Qed.

#[local] Instance same_schema_trans : Transitive (same_schema (W:=W)).
Proof. intros w1 w2 w3 (?&?&?) (?&?&?). split_and!; congruence. Qed.








End Updating.

Section UpdatingPure.

Context {W : Type}.
Implicit Types (w : World W).






End UpdatingPure.

(** ** Writing a table and reading it back *)














Lemma header_names_length fields : length (header_names fields) = length fields.
Proof. apply length_imap. Qed.

Lemma filter_all {A} (P : A → Prop) `{∀ x, Decision (P x)} (l : list A) :
  Forall P l → filter P l = l.
Proof.
  induction 1 as [|x l Hx _ IH]; [done|].
  by rewrite filter_cons, decide_True, IH.
Qed.







Lemma to_csv_ok {W} (w : World W) d path kwargs :
  kw_unexpected kwargs = None → path ≠ "" → fs w !! path ≠ Some Directory →
  to_csv d path kwargs w
  = (Ok (), written path (csv_records (kw_index kwargs) d) w).
Proof.
  intros Hkw Hpath Hdir. unfold to_csv. rewrite Hkw.
  rewrite decide_False by done.
  by destruct (fs w !! path) as [[|text]|].
Qed.

Lemma table_last {W} (h : list DataFrame) d s st f c :
  table (W:=W) {| heap := h ++ [d];
                  self := {| filepath := s; data := length h |};
                  stdout := st; fs := f; caller := c |} = d.
Proof. unfold table. simpl. by rewrite list_lookup_middle. Qed.

(** The constructor in one step: what it loads and what it prints. *)
Lemma init_unfold {W} {RD : Reader} path index_col (w : World W) :
  __init__ path index_col w
  = (Ok (),
     {| heap := heap w ++ [(load_outcome (fs w) path index_col).1];
        self := {| filepath := path; data := length (heap w) |};
        stdout := stdout w ++ (load_outcome (fs w) path index_col).2
                  ++ [Loaded path (shape (load_outcome (fs w) path index_col).1)];
        fs := fs w; caller := caller w |}).
Proof.
  unfold __init__, mbind, M_bind, get_self, set_self, set_data, deref. simpl.
  rewrite load_csv_unfold. simpl. unfold load_outcome.
  destruct (fs w !! path) as [nd|] eqn:Hfs.
  - unfold read_outcome. simpl. rewrite Hfs.
    destruct nd as [|text].
    + simpl. rewrite list_lookup_middle by done. simpl.
      unfold print. simpl. by rewrite <- (assoc (++)).
    + destruct (read_text text (truthy index_col)) as [e|d] eqn:Hp.
      * simpl. rewrite list_lookup_middle by done. simpl.
        unfold print. simpl. by rewrite <- (assoc (++)).
      * simpl. by rewrite list_lookup_middle by done.
  - simpl. rewrite list_lookup_middle by done. simpl.
    unfold print. simpl. by rewrite <- (assoc (++)).
Qed.



Lemma locate_from_notin {A} `{EqDecision A} n (x : A) l :
  x ∉ l → locate_from n x l = [].
Proof.
  revert n. induction l as [|y l IH]; intros n Hx; simpl; [done|].
  apply not_elem_of_cons in Hx as [Hne Hx].
  rewrite decide_False by done. by apply IH.
Qed.

Lemma locate_unique {A} `{EqDecision A} (x : A) l i :
  NoDup l → l !! i = Some x → locate x l = [i].
Proof.
  unfold locate. revert i. induction l as [|y l IH]; intros i Hnd Hi; [done|].
  apply NoDup_cons in Hnd as [Hy Hnd]. simpl.
  destruct i as [|i]; simpl in Hi.
  - injection Hi as ->. rewrite decide_True by done.
    by rewrite locate_from_notin.
  - rewrite decide_False.
    + rewrite locate_from_S, (IH i) by done. done.
    + intros ->. apply Hy. by eapply list_elem_of_lookup_2.
Qed.


Lemma foldl_set_cell_columns col (pvs : list (nat * cell)) d :
  columns (foldl (λ d' iv, set_cell col iv.2 d' iv.1) d pvs) = columns d.
Proof.
  revert d. induction pvs as [|iv pvs IH]; intros d; simpl; [done|].
  by rewrite IH.
Qed.





Lemma select_mask_filter {A} (q : A → bool) (l : list A) :
  select_mask (q <$> l) l = filter (λ x, q x = true) l.
Proof.
  induction l as [|x l IH]; [done|].
  rewrite !fmap_cons, filter_cons. cbn [select_mask].
  destruct (q x).
  - by rewrite decide_True, IH.
  - by rewrite decide_False.
Qed.

Lemma selected_labels_filter p d :
  selected_labels p d
  = fst <$> filter (λ r, p (row_series d r) = true) (rows d).
Proof.
  unfold selected_labels, index, getitem_mask, iter_rows. simpl.
  rewrite <- (list_fmap_compose (row_series d) p).
  by rewrite (select_mask_filter (p ∘ row_series d)).
Qed.







(** ** The claims that fail, at concrete tables *)

Lemma model_reader_agrees : agrees_with_model (RD := model_reader).
Proof. intros text index_col r H. simpl. by rewrite H. Qed.



(** C3 fails on the code: [delete_rows] returns [None], not the number of
    rows deleted (here 1), which is only printed. *)
Lemma delete_rows_returns_none :
  let out := delete_rows (pure_fn (at_least "age" 30)) w_people in
  count_matching (at_least "age" 30) (table w_people) = 1%nat
  ∧ out.1 = Ok PyNone
  ∧ out.1 ≠ Ok (PyInt 1)
  ∧ stdout out.2 = [Deleted 1 (1, 2)%nat].
Proof. by vm_compute. Qed.



(** C8 fails on the code: a write that fails (the destination is a
    directory) is not reported to the caller; the call returns [None], as
    it does for a write that succeeds. *)
Lemma save_changes_failure_not_returned :
  (to_csv (table w_people) "out" [] w_people)
  = (Raise (IsADirectoryError "out"), w_people)
  ∧ (save_changes (Some "out") [] w_people).1 = Ok PyNone
  ∧ (save_changes (Some "copy.csv") [] w_people).1 = Ok PyNone
  ∧ stdout (save_changes (Some "out") [] w_people).2
    = [ErrorSaving (IsADirectoryError "out")].
Proof. by vm_compute. Qed.

(** ** The theorems at concrete tables *)



(** Deleting the rows of [people] with an age of 30 or more. *)
Lemma delete_rows_compacts_witness :
  empty (table w_people) = false
  ∧ cells (table (delete_rows (pure_fn (at_least "age" 30)) w_people).2)
    = snd <$> surviving (at_least "age" 30) (table w_people).
Proof.
  assert (empty (table w_people) = false) as Hd by reflexivity.
  split; [assumption|].
  pose proof (delete_rows_compacts w_people (at_least "age" 30) Hd) as H.
  cbv zeta in H. apply H.
Defined.


(** A query on [people] leaves the table as it is. *)
Lemma query_is_pure_witness :
  valid w_people
  ∧ table (query (Some (pure_fn (at_least "age" 26))) (Some ["name"]) w_people).2
    = table w_people.
Proof.
  assert (valid w_people) as Hv by (unfold valid; simpl; lia).
  split; [assumption|].
  pose proof (query_is_pure w_people Hv
                (Some (pure_fn (at_least "age" 26))) (Some ["name"])) as H.
  cbv zeta in H. apply H.
Defined.

(** Loading a missing file, a file without records, and a file
    [read_csv] rejects. *)
Lemma load_csv_never_raises_witness :
  fs w_missing !! filepath (self w_missing) = None
  ∧ heap (_load_csv (RD := model_reader) None w_missing).2 = [empty_frame]
  ∧ stdout (_load_csv (RD := model_reader) None w_missing).2
    = [WarnFileNotFound "people.csv"]
  ∧ fs w_blank !! filepath (self w_blank) = Some (RegularFile [])
  ∧ agrees_with_model (RD := model_reader)
  ∧ filter (λ r : list string, r ≠ []) [] = []
  ∧ stdout (_load_csv (RD := model_reader) None w_blank).2
    = [WarnFileEmpty "people.csv"]
  ∧ is_Some (fs w_ragged !! filepath (self w_ragged))
  ∧ read_csv (RD := model_reader) "people.csv" None w_ragged
    = (Raise (ParserError 2 3), w_ragged)
  ∧ heap (_load_csv (RD := model_reader) None w_ragged).2 = [empty_frame]
  ∧ stdout (_load_csv (RD := model_reader) None w_ragged).2
    = [ErrorLoading (ParserError 2 3)].
Proof.
  assert (fs w_missing !! filepath (self w_missing) = None) as H1 by reflexivity.
  assert (fs w_blank !! filepath (self w_blank) = Some (RegularFile [])) as H2
    by (vm_compute; reflexivity).
  pose proof model_reader_agrees as H3.
  assert (filter (λ r : list string, r ≠ []) [] = []) as H4 by reflexivity.
  assert (is_Some (fs w_ragged !! filepath (self w_ragged))) as H5
    by (vm_compute; eauto).
  assert (read_csv (RD := model_reader) "people.csv" None w_ragged
          = (Raise (ParserError 2 3), w_ragged))
    as H6 by (vm_compute; reflexivity).
  pose proof (load_csv_never_raises (RD := model_reader) w_missing None) as Hm.
  pose proof (load_csv_never_raises (RD := model_reader) w_blank None) as Hb.
  pose proof (load_csv_never_raises (RD := model_reader) w_ragged None) as Hr.
  cbv zeta in Hm, Hb, Hr.
  destruct Hm as (_ & _ & _ & _ & _ & _ & Hm & _).
  destruct Hb as (_ & _ & _ & _ & _ & _ & _ & Hb & _).
  destruct Hr as (_ & _ & _ & _ & _ & _ & _ & _ & Hr).
  destruct (Hm H1) as [Hm1 Hm2].
  destruct (Hb _ H2 H3 H4) as [_ Hb2].
  destruct (Hr _ _ H5 H6) as (Hr1 & _ & Hr2).
  split_and!; assumption.
Defined.


(** Saving [people] to [copy.csv], and into a directory. *)
Lemma save_changes_default_path_and_failure_witness :
  simple_name "copy.csv" = true
  ∧ fs w_people !! "copy.csv" ≠ Some Directory
  ∧ kw_unexpected [] = None
  ∧ fs (save_changes (Some "copy.csv") [] w_people).2 !! "copy.csv"
    = Some (RegularFile [[""; "name"; "age"]; ["0"; "a"; "30"]; ["1"; "b"; "25"]])
  ∧ (to_csv (table w_people) "out" [] w_people)
    = (Raise (IsADirectoryError "out"), w_people)
  ∧ (save_changes (Some "out") [] w_people).1 = Ok PyNone
  ∧ stdout (save_changes (Some "out") [] w_people).2
    = [ErrorSaving (IsADirectoryError "out")].
Proof.
  assert (simple_name "copy.csv" = true) as H1 by reflexivity.
  assert (fs w_people !! "copy.csv" ≠ Some Directory) as H2
    by (vm_compute; discriminate).
  assert (kw_unexpected [] = None) as H3 by reflexivity.
  assert ((to_csv (table w_people) "out" [] w_people)
          = (Raise (IsADirectoryError "out"), w_people)) as H4
    by (vm_compute; reflexivity).
  pose proof (save_changes_default_path_and_failure w_people (Some "copy.csv") [])
    as Hc.
  pose proof (save_changes_default_path_and_failure w_people (Some "out") []) as Ho.
  cbv zeta in Hc, Ho.
  destruct Hc as (_ & _ & _ & _ & _ & Hc & _).
  destruct Ho as (_ & _ & _ & _ & _ & _ & Ho).
  destruct (Ho _ _ H4) as [Ho1 Ho2].
  split_and!; try assumption.
  rewrite (Hc H1 H2 H3). vm_compute. reflexivity.
Defined.

(** Saving [people] with a keyword [to_csv] does not have. *)
Lemma save_changes_returns_none_witness :
  (to_csv (table w_people) "out" [KwUnexpected "colour"] w_people)
  = (Raise (TypeError "colour"), w_people)
  ∧ save_changes (Some "out") [KwUnexpected "colour"] w_people
    = (Ok PyNone, printed (ErrorSaving (TypeError "colour")) w_people).
Proof.
  assert ((to_csv (table w_people) "out" [KwUnexpected "colour"] w_people)
          = (Raise (TypeError "colour"), w_people)) as H1
    by (vm_compute; reflexivity).
  split; [assumption|].
  apply (proj2 (save_changes_returns_none w_people (Some "out")
                  [KwUnexpected "colour"]) _ _ H1).
Defined.

(** On the table without rows a predicate that raises is never called. *)
Lemma empty_table_skips_predicate_witness :
  rows (table w_no_rows) = []
  ∧ query (Some failing) None w_no_rows
    = (Ok (PyFrame 1), allocated empty_frame (printed NoDataToQuery w_no_rows))
  ∧ update_data failing [("age", Static (Num 1))] w_no_rows
    = (Ok PyNone, printed NoDataToUpdate w_no_rows)
  ∧ delete_rows failing w_no_rows = (Ok PyNone, printed NoDataToDelete w_no_rows)
  ∧ caller (delete_rows failing w_no_rows).2 = 0%nat.
Proof.
  assert (rows (table w_no_rows) = []) as Hr by reflexivity.
  destruct (empty_table_skips_predicate w_no_rows Hr) as (Hq & Hu & Hd).
  split_and!; [assumption|apply Hq|apply Hu|apply Hd|].
  by rewrite Hd.
Defined.

(** * Further properties *)

(** ** What an update cannot change *)

Lemma write_cells_length cols col v cs :
  length (write_cells cols col v cs) = length cs.
Proof.
  unfold write_cells. generalize (locate col cols). intros js.
  revert cs. induction js as [|j js IH]; intros cs; simpl; [done|].
  by rewrite IH, length_insert.
Qed.

Lemma fmap_alter_same {A B} (f : A → B) (g : A → A) i (l : list A) :
  (∀ x, f (g x) = f x) → f <$> alter g i l = f <$> l.
Proof.
  intros Hg. revert i. induction l as [|x l IH]; intros [|i]; simpl; try done.
  - by rewrite Hg.
  - f_equal. apply IH.
Qed.

Lemma set_cell_shape col v d i : frame_shape (set_cell col v d i) = frame_shape d.
Proof.
  unfold frame_shape, set_cell, index, cells. simpl. f_equal; [f_equal|].
  - by apply fmap_alter_same.
  - rewrite <- !list_fmap_compose. apply fmap_alter_same.
    intros r. simpl. apply write_cells_length.
Qed.

Lemma loc_set_scalar_shape labels col v d :
  frame_shape (loc_set_scalar labels col v d) = frame_shape d.
Proof.
  unfold loc_set_scalar. generalize (loc_positions labels d). intros ps.
  revert d. induction ps as [|i ps IH]; intros d; simpl; [done|].
  by rewrite IH, set_cell_shape.
Qed.

Lemma loc_set_values_shape labels col vs d :
  frame_shape (loc_set_values labels col vs d) = frame_shape d.
Proof.
  unfold loc_set_values. generalize (zip (loc_positions labels d) vs). intros ps.
  revert d. induction ps as [|i ps IH]; intros d; simpl; [done|].
  by rewrite IH, set_cell_shape.
Qed.

Lemma aligned_shape d d' : frame_shape d' = frame_shape d → aligned d → aligned d'.
Proof.
  unfold frame_shape, aligned, cells. intros [= _ Hc _ Hl] Hal.
  rewrite Hc. apply Forall_lookup. intros i r Hr.
  apply (f_equal (λ l, l !! i)) in Hl. rewrite !list_lookup_fmap, Hr in Hl.
  destruct (rows d !! i) as [r0|] eqn:Hr0; [|done]. simpl in Hl.
  injection Hl as ->. by apply (Forall_lookup_1 _ _ _ _ Hal Hr0).
Qed.

Lemma default_index_shape d d' :
  frame_shape d' = frame_shape d → default_index d → default_index d'.
Proof.
  unfold frame_shape, default_index, cells, index. intros [= _ _ Hi Hl] Hd.
  rewrite Hi, Hd. f_equal.
  apply (f_equal length) in Hl. by rewrite !length_fmap in Hl.
Qed.

Section Shape.

Context {W : Type}.
Implicit Types (w : World W).

#[local] Instance same_shape_refl : Reflexive (same_shape (W:=W)).
Proof. by intros w. Qed.

#[local] Instance same_shape_trans : Transitive (same_shape (W:=W)).
Proof. intros w1 w2 w3 (?&?&?) (?&?&?). split_and!; congruence. Qed.

Lemma mutate_same_shape l (f : DataFrame → DataFrame) :
  (∀ d, frame_shape (f d) = frame_shape d) →
  preserves same_shape (mutate (W:=W) l f).
Proof.
  intros Hf w. split_and!; try done. simpl. by apply fmap_alter_same.
Qed.

Lemma print_same_shape m : preserves same_shape (print (W:=W) m).
Proof. by intros w. Qed.

Lemma call_same_shape {B} (f : callable W B) r : preserves same_shape (call f r).
Proof. intros w. unfold call. by destruct (f r (caller w)). Qed.

Lemma update_column_same_shape labels col value :
  preserves same_shape (update_column (W:=W) labels col value).
Proof.
  unfold update_column.
  apply preserves_bind; [apply _ | apply preserves_get_self, _ |]. intros s.
  apply preserves_bind; [apply _ | apply preserves_deref, _ |]. intros d.
  destruct (has_column col d); [|apply print_same_shape].
  destruct value as [v|f].
  - apply mutate_same_shape. intros d'. apply loc_set_scalar_shape.
  - apply preserves_bind; [apply _ | |].
    + apply preserves_apply_rows; [apply _..|]. intros r. apply call_same_shape.
    + intros vs. apply mutate_same_shape. intros d'.
      apply loc_set_values_shape.
Qed.

Lemma update_columns_same_shape labels updates :
  preserves same_shape (update_columns (W:=W) labels updates).
Proof.
  induction updates as [|[col value] updates IH]; simpl.
  - apply preserves_ret, _.
  - apply preserves_bind; [apply _ | apply update_column_same_shape |].
    intros _. apply IH.
Qed.

Lemma update_data_same_shape cf updates :
  preserves same_shape (update_data (W:=W) cf updates).
Proof.
  unfold update_data.
  apply preserves_bind; [apply _ | apply preserves_get_self, _ |]. intros s.
  apply preserves_bind; [apply _ | apply preserves_deref, _ |]. intros d.
  destruct (empty d).
  { apply preserves_bind; [apply _ | apply print_same_shape |]. intros _.
    apply preserves_ret, _. }
  apply preserves_bind; [apply _ | |].
  { apply preserves_apply_rows; [apply _..|]. intros r. apply call_same_shape. }
  intros mask. destruct (index _).
  { apply preserves_bind; [apply _ | apply print_same_shape |]. intros _.
    apply preserves_ret, _. }
  apply preserves_bind; [apply _ | apply update_columns_same_shape |]. intros _.
  apply preserves_bind; [apply _ | apply print_same_shape |]. intros _.
  apply preserves_ret, _.
Qed.

Lemma same_shape_table w w' :
  same_shape w w' → frame_shape (table w') = frame_shape (table w).
Proof.
  intros (Hself & _ & Hsh). unfold table. rewrite Hself.
  apply (f_equal (λ h, h !! data (self w))) in Hsh.
  rewrite !list_lookup_fmap in Hsh.
  destruct (heap w' !! _), (heap w !! _); simpl in *; try done.
  by apply (inj Some).
Qed.

Lemma same_shape_valid w w' : same_shape w w' → valid w → valid w'.
Proof.
  intros (Hself & _ & Hsh). unfold valid. rewrite Hself.
  apply (f_equal length) in Hsh. rewrite !length_fmap in Hsh. lia.
Qed.

End Shape.

(** X1: [update_data] writes cells and nothing else.  Whatever the predicate
    and the update functions do, and also when one of them raises, the
    manager, the files, and of every object the index name, the column
    labels, the row labels and the number of cells of each row are as
    before: no row is added, removed, reordered or relabelled. *)
Theorem update_data_keeps_shape {W} (w : World W)
    (condition_func : callable W bool) (updates : list (string * update W)) :
  let out := update_data condition_func updates w in
  same_shape w out.2
  ∧ index (table out.2) = index (table w)
  ∧ length (rows (table out.2)) = length (rows (table w))
  ∧ index_name (table out.2) = index_name (table w)
  ∧ length (heap out.2) = length (heap w).
Proof.
  intros out. subst out.
  pose proof (update_data_same_shape condition_func updates w) as Hs.
  pose proof (same_shape_table _ _ Hs) as Ht.
  unfold frame_shape in Ht. injection Ht as Hn Hc Hi Hl.
  split_and!; try done.
  - apply (f_equal length) in Hi. unfold index in Hi.
    by rewrite !length_fmap in Hi.
  - destruct Hs as (_ & _ & Hs). apply (f_equal length) in Hs.
    by rewrite !length_fmap in Hs.
Qed.

(** ** The invariants of a managed table *)

Lemma locate_from_lookup {A} `{EqDecision A} n (x : A) l j :
  j ∈ locate_from n x l → ∃ k, j = (n + k)%nat ∧ l !! k = Some x.
Proof.
  revert n. induction l as [|y l IH]; intros n Hj; simpl in Hj.
  { by apply elem_of_nil in Hj. }
  case_decide as Hy.
  - apply elem_of_cons in Hj as [->|Hj].
    + exists 0%nat. subst y. split; [lia|done].
    + destruct (IH _ Hj) as (k & -> & Hk). exists (S k). split; [lia|done].
  - destruct (IH _ Hj) as (k & -> & Hk). exists (S k). split; [lia|done].
Qed.


Lemma range_index_NoDup n : NoDup (range_index n).
Proof.
  unfold range_index. apply NoDup_fmap_2; [|apply NoDup_seq].
  intros i j [= H]. lia.
Qed.

Lemma delete_at_length {A} j (l : list A) :
  (j < length l)%nat → length (delete_at j l) = (length l - 1)%nat.
Proof.
  intros Hj. unfold delete_at.
  rewrite length_app, length_take, length_drop. lia.
Qed.

(** A frame the model of [read_csv] gives has one cell per column in every
    row; read without an index column its rows are labelled 0, 1, 2, ... *)
Lemma parse_csv_well_formed text index_col d :
  parse_csv text index_col = Some (inr d) →
  aligned d ∧ (index_col = None → default_index d ∧ index_name d = None).
Proof.
  unfold parse_csv.
  destruct (filter _ text) as [|header records]; [done|].
  destruct (negb _); [done|]. destruct (bool_decide _); [done|].
  destruct (list_find _ records) as [[? ?]|].
  { by destruct (match index_col with Some _ => _ | None => _ end). }
  set (names := header_names header).
  destruct (mapM _ _) as [cols|] eqn:Hcols; [|done].
  cbn [mbind option_bind].
  assert (∀ i, length ((λ col : list cell, default Null (col !! i)) <$> cols)
               = length names) as Hlen.
  { intros i. apply length_mapM in Hcols.
    rewrite length_fmap, <- Hcols, length_seq.
    subst names. by rewrite header_names_length. }
  destruct index_col as [c|].
  - generalize (seq 0 (length records)). intros idxs.
    destruct records as [|r1 records']; [done|].
    destruct (locate c names) as [|j js] eqn:Hloc; [done|].
    case_decide; [done|].
    intros [= <-]. split; [|done].
    assert (j < length names)%nat as Hj.
    { assert (j ∈ locate_from 0 c names) as Hin
        by (unfold locate in Hloc; rewrite Hloc; left).
      apply locate_from_lookup in Hin as (k & -> & Hk).
      by apply lookup_lt_Some in Hk. }
    unfold aligned. cbn [rows columns].
    apply Forall_fmap, Forall_forall. intros i _. simpl.
    rewrite !delete_at_length; [by rewrite Hlen|done|by rewrite Hlen].
  - intros [= <-]. split.
    + unfold aligned. simpl.
      apply Forall_fmap, Forall_forall. intros i _. simpl. apply Hlen.
    + intros _. split; [|done]. unfold default_index, index. simpl.
      rewrite <- list_fmap_compose, length_fmap, length_seq. done.
Qed.

Lemma select_mask_Forall {A} (P : A → Prop) mask (l : list A) :
  Forall P l → Forall P (select_mask mask l).
Proof.
  intros Hl. revert mask. induction Hl as [|x l Hx _ IH]; intros [|[] mask];
    simpl; try done; constructor; auto.
Qed.

Lemma aligned_empty_frame : aligned empty_frame.
Proof. constructor. Qed.

Lemma default_index_renumber iname cols rs :
  default_index {| index_name := iname; columns := cols; rows := renumber rs |}.
Proof.
  unfold default_index, index. simpl. by rewrite renumber_index, renumber_length.
Qed.

Lemma aligned_renumber iname cols rs :
  Forall (λ r : cell * list cell, length r.2 = length cols) rs →
  aligned {| index_name := iname; columns := cols; rows := renumber rs |}.
Proof.
  intros Hrs. unfold aligned. simpl.
  apply Forall_forall. intros r Hr.
  assert (r.2 ∈ snd <$> renumber rs) as Hin by (by apply list_elem_of_fmap_2).
  rewrite renumber_cells in Hin.
  apply list_elem_of_fmap in Hin as (r0 & -> & Hr0).
  rewrite Forall_forall in Hrs. by apply Hrs.
Qed.

(** X2: on a file that is missing, is a directory, or is one the model of
    [read_csv] covers, the constructor leaves a well-formed manager:
    [self.data] refers to a new object, every row of the table has one
    cell per column, [self.filepath] is the path given, and nothing that
    was on the heap is touched.  Without an index column (or when loading
    fails) the rows are labelled 0, 1, 2, ... *)
Theorem init_establishes_invariants {W} {RD : Reader} (w : World W)
    (path : string) (index_col : option string) :
  agrees_with_model →
  (∀ text, fs w !! path = Some (RegularFile text) →
           is_Some (parse_csv text (truthy index_col))) →
  let out := __init__ path index_col w in
  out.1 = Ok ()
  ∧ well_formed out.2
  ∧ filepath (self out.2) = path
  ∧ heap w `prefix_of` heap out.2 ∧ heap w !! data (self out.2) = None
  ∧ fs out.2 = fs w
  ∧ (truthy index_col = None →
       default_index (table out.2) ∧ NoDup (index (table out.2))).
Proof.
  intros Hagree Hmodel out. subst out.
  rewrite init_unfold. simpl. unfold well_formed, valid.
  rewrite table_last. simpl.
  set (d := (load_outcome (fs w) path index_col).1).
  assert (aligned d ∧ (truthy index_col = None → default_index d)) as [Hal Hdi].
  { subst d. unfold load_outcome.
    destruct (fs w !! path) as [[|text]|] eqn:Hfs;
      try (split; [apply aligned_empty_frame|done]).
    destruct (Hmodel text eq_refl) as [r Hr].
    rewrite (Hagree _ _ _ Hr).
    destruct r as [e|d]; [split; [apply aligned_empty_frame|done]|].
    apply parse_csv_well_formed in Hr as [Hal Hdi]. split; [done|].
    intros Hnone. by apply Hdi. }
  split_and!; try done.
  - rewrite length_app. simpl. lia.
  - by apply prefix_app_r.
  - apply lookup_ge_None. lia.
  - intros Hnone. split; [by apply Hdi|].
    rewrite (Hdi Hnone). apply range_index_NoDup.
Qed.

Section Keeping.

Context {W : Type}.
Implicit Types (w : World W).

(** A world that only grew its heap and kept its manager has the same
    table. *)
Lemma grown_heap_table w w' :
  valid w → heap w `prefix_of` heap w' → self w' = self w →
  table w' = table w ∧ valid w'.
Proof.
  intros Hv Hpre Hself. unfold table, valid in *. rewrite Hself. split.
  - destruct (lookup_lt_is_Some_2 _ _ Hv) as [d Hd].
    by rewrite (prefix_lookup_Some _ _ _ _ Hd Hpre), Hd.
  - apply prefix_length in Hpre. lia.
Qed.

Lemma add_row_valid row_data w : valid (add_row row_data w).2.
Proof.
  unfold valid, add_row, mbind, M_bind, get_self, deref, set_data. simpl.
  rewrite !length_app. simpl. lia.
Qed.

(** The three ways [delete_rows] can end: at its guard, with the exception
    of the predicate, or with a new table holding the rows the mask
    keeps. *)
Lemma delete_rows_cases (cf : callable W bool) w :
  let out := delete_rows cf w in
  (empty (table w) = true ∧ out = (Ok PyNone, printed NoDataToDelete w))
  ∨ (empty (table w) = false
     ∧ ∃ e, out = (Raise e, out.2)
            ∧ apply_rows cf (iter_rows (table w)) w = (Raise e, out.2)
            ∧ caller_only w out.2)
  ∨ (empty (table w) = false
     ∧ ∃ mask w1,
         apply_rows cf (iter_rows (table w)) w = (Ok mask, w1)
         ∧ out.1 = Ok PyNone
         ∧ heap out.2
           = heap w ++ [reset_index_drop (getitem_mask (negb <$> mask) (table w))]
         ∧ self out.2 = {| filepath := filepath (self w); data := length (heap w) |}
         ∧ fs out.2 = fs w ∧ caller out.2 = caller w1
         ∧ table out.2
           = reset_index_drop (getitem_mask (negb <$> mask) (table w))).
Proof.
  intros out. subst out.
  unfold delete_rows, mbind, M_bind, get_self, deref, set_data. simpl.
  fold (table w). destruct (empty (table w)) eqn:He; [by left|right].
  pose proof (apply_rows_caller_only cf (iter_rows (table w)) w) as Hco.
  destruct (apply_rows cf (iter_rows (table w)) w) as [[mask|e] w1] eqn:Happ.
  - right. split; [done|]. exists mask, w1. simpl in *.
    destruct Hco as (Hh & Hs & Hf & Ho).
    rewrite Hh, Hs, Hf. split_and!; try done.
    unfold table. simpl. by rewrite list_lookup_middle.
  - left. split; [done|]. exists e. done.
Qed.

End Keeping.

(** X3: every method keeps the manager well formed (its table reference
    exists and every row has one cell per column), whatever the functions
    it is given do.  [add_row] always leaves rows labelled 0, 1, 2, ...;
    [update_data] and [delete_rows] keep that labelling when the table has
    it; [query] and [save_changes] leave the table as it is. *)
Theorem methods_keep_invariants {W} (w : World W) (Hwf : well_formed w) :
  (∀ row_data,
     well_formed (add_row row_data w).2
     ∧ default_index (table (add_row row_data w).2))
  ∧ (∀ (cf : callable W bool) updates,
       well_formed (update_data cf updates w).2
       ∧ (default_index (table w) →
          default_index (table (update_data cf updates w).2)))
  ∧ (∀ cf : callable W bool,
       well_formed (delete_rows cf w).2
       ∧ (default_index (table w) →
          default_index (table (delete_rows cf w).2)))
  ∧ (∀ (cf : option (callable W bool)) cols,
       well_formed (query cf cols w).2 ∧ table (query cf cols w).2 = table w)
  ∧ (∀ output_filepath kwargs,
       well_formed (save_changes output_filepath kwargs w).2
       ∧ table (save_changes output_filepath kwargs w).2 = table w).
Proof.
  destruct Hwf as [Hv Hal]. split_and!.
  - intros row_data.
    destruct (add_row_outcome w row_data) as (_ & Ht & _).
    unfold well_formed. rewrite Ht. split_and!.
    + apply add_row_valid.
    + apply aligned_renumber. apply Forall_app. split; [exact Hal|].
      constructor; [|constructor]. simpl. unfold conformed_cells.
      by rewrite length_fmap.
    + apply default_index_renumber.
  - intros cf updates.
    pose proof (update_data_same_shape cf updates w) as Hs.
    pose proof (same_shape_table _ _ Hs) as Ht.
    split_and!.
    + split; [by eapply same_shape_valid|by eapply aligned_shape].
    + by apply default_index_shape.
  - intros cf.
    destruct (delete_rows_cases cf w)
      as [[_ ->]|[[_ (e & _ & _ & Hh & Hs & _)]|[_ (mask & w1 & _ & _ & Hh & Hs & _ & _ & Ht)]]].
    + done.
    + unfold well_formed, valid, table. rewrite Hh, Hs. done.
    + unfold well_formed, valid. rewrite Ht, Hh, Hs. simpl. split_and!.
      * rewrite length_app. simpl. lia.
      * apply aligned_renumber. by apply select_mask_Forall.
      * intros _. apply default_index_renumber.
  - intros cf cols.
    destruct (query_frame_rel_query cf cols w) as (Hpre & Hself & _).
    destruct (grown_heap_table w _ Hv Hpre Hself) as [Ht Hv'].
    unfold well_formed. by rewrite Ht.
  - intros output_filepath kwargs.
    pose proof (save_changes_unfold output_filepath kwargs w) as Hs.
    simpl in Hs. rewrite Hs.
    destruct (to_csv_cases (table w)
                (default (filepath (self w)) (truthy output_filepath)) kwargs w)
      as [->|[e ->]]; done.
Qed.

(** ** Exceptions of the caller's functions *)

(** X4: [delete_rows] is all or nothing.  It raises only what the predicate
    raised, and then the heap, the manager, the files and the printed
    lines are as before the call: no row has been deleted. *)
Theorem delete_rows_all_or_nothing {W} (w : World W)
    (condition_func : callable W bool) (e : exn) :
  let out := delete_rows condition_func w in
  out.1 = Raise e →
  apply_rows condition_func (iter_rows (table w)) w = (Raise e, out.2)
  ∧ heap out.2 = heap w ∧ self out.2 = self w ∧ table out.2 = table w
  ∧ fs out.2 = fs w ∧ stdout out.2 = stdout w.
Proof.
  intros out Hraise. subst out.
  destruct (delete_rows_cases condition_func w)
    as [[_ Heq]|[[_ (e' & Heq & Happ & Hh & Hs & Hf & Ho)]|[_ (mask & w1 & _ & Hok & _)]]].
  - by rewrite Heq in Hraise.
  - rewrite Heq in Hraise. simpl in Hraise. injection Hraise as ->.
    split_and!; try done. unfold table. by rewrite Hh, Hs.
  - by rewrite Hok in Hraise.
Qed.

Section Partial.

Context {W : Type}.
Implicit Types (w : World W).









End Partial.


Lemma filter_none {A} (P : A → bool) (l : list A) :
  (∀ x, x ∈ l → P x = false) → filter (λ x, P x = true) l = [].
Proof.
  induction l as [|x l IH]; intros H; [done|].
  rewrite filter_cons, decide_False.
  - apply IH. intros y Hy. apply H. by right.
  - rewrite H by left. done.
Qed.

(** X6: when the predicate holds for no row, [update_data] changes nothing:
    it prints that no row matched and returns, and no update function is
    called. *)
Theorem update_data_no_match {W} (w : World W) (p : Series → bool)
    (updates : list (string * update W))
    (Hdata : empty (table w) = false)
    (Hnone : ∀ r, r ∈ rows (table w) → p (row_series (table w) r) = false) :
  update_data (pure_fn p) updates w = (Ok PyNone, printed NoRowsMatched w).
Proof.
  unfold update_data, mbind, M_bind, get_self, deref. simpl.
  fold (table w). rewrite Hdata, apply_rows_pure.
  fold (selected_labels p (table w)). rewrite selected_labels_filter.
  assert (filter (λ r, p (row_series (table w) r) = true) (rows (table w)) = [])
    as ->; [|done].
  by apply filter_none.
Qed.

(** ** Deleting again, and deleting what was added *)

Section Deleting.

Context {W : Type}.
Implicit Types (w : World W).

(** The table [delete_rows] leaves when its predicate has no effects. *)
Lemma delete_rows_pure_table (p : Series → bool) w :
  table (delete_rows (pure_fn p) w).2
  = if empty (table w) then table w
    else {| index_name := None;
            columns := columns (table w);
            rows := renumber (surviving p (table w)) |}.
Proof.
  destruct (delete_rows_cases (pure_fn p) w)
    as [[-> ->]|[[_ (e & _ & Happ & _)]|[-> (mask & w1 & Happ & _ & _ & _ & _ & _ & ->)]]].
  - done.
  - by rewrite apply_rows_pure in Happ.
  - rewrite apply_rows_pure in Happ. injection Happ as <- <-.
    unfold reset_index_drop, getitem_mask, iter_rows. simpl.
    rewrite <- (list_fmap_compose (row_series (table w)) p).
    by rewrite (select_mask_negb (p ∘ row_series (table w))).
Qed.

Lemma renumber_elem (rs : list (cell * list cell)) r' :
  r' ∈ renumber rs → ∃ r, r ∈ rs ∧ r.2 = r'.2.
Proof.
  intros Hr'.
  assert (r'.2 ∈ snd <$> renumber rs) as Hin by (by apply list_elem_of_fmap_2).
  rewrite renumber_cells in Hin.
  apply list_elem_of_fmap in Hin as (r & Heq & Hr). eauto.
Qed.

Lemma filter_cells (P : cell * list cell → Prop) `{∀ r, Decision (P r)}
    (Q : list cell → Prop) `{∀ cs, Decision (Q cs)} (rs : list (cell * list cell)) :
  (∀ r, r ∈ rs → P r ↔ Q r.2) →
  snd <$> filter P rs = filter Q (snd <$> rs).
Proof.
  induction rs as [|r rs IH]; intros HPQ; [done|].
  rewrite fmap_cons, !filter_cons.
  destruct (decide (P r)) as [HP|HP], (decide (Q r.2)) as [HQ|HQ].
  - rewrite fmap_cons, IH; [done|]. intros r0 Hr0. apply HPQ. by right.
  - destruct HQ. apply HPQ; [left|done].
  - destruct HP. apply HPQ; [left|done].
  - apply IH. intros r0 Hr0. apply HPQ. by right.
Qed.

End Deleting.

(** X7: deleting twice is deleting once.  For a predicate without effects
    that does not look at the row label, a second [delete_rows] with the
    same predicate leaves the cells and the columns of the table as the
    first left them. *)
Theorem delete_rows_idempotent {W} (w : World W) (p : Series → bool)
    (Hblind : label_blind p) :
  let once := (delete_rows (pure_fn p) w).2 in
  let twice := (delete_rows (pure_fn p) once).2 in
  cells (table twice) = cells (table once)
  ∧ columns (table twice) = columns (table once)
  ∧ length (rows (table twice)) = length (rows (table once)).
Proof.
  intros once twice. subst once twice.
  set (w1 := (delete_rows (pure_fn p) w).2).
  assert (cells (table (delete_rows (pure_fn p) w1).2) = cells (table w1)
          ∧ columns (table (delete_rows (pure_fn p) w1).2) = columns (table w1))
    as [Hc Hcol].
  { rewrite (delete_rows_pure_table p w1).
    destruct (empty (table w1)) eqn:He1; [done|]. split; [|done].
    unfold cells. simpl. rewrite renumber_cells. f_equal.
    unfold surviving. apply filter_all. apply Forall_forall. intros r' Hr'.
    subst w1. rewrite (delete_rows_pure_table p w) in Hr' |- *.
    destruct (empty (table w)) eqn:He.
    { rewrite (delete_rows_pure_table p w), He in He1. unfold empty in *.
      (* the table did not change, so it is still empty: no row *)
      apply orb_true_iff in He as [He|He].
      - apply Nat.eqb_eq in He. destruct (rows (table w)); [|done].
        by apply elem_of_nil in Hr'.
      - by rewrite He, orb_true_r in He1. }
    simpl in Hr'. apply renumber_elem in Hr' as (r & Hr & Heq).
    apply list_elem_of_filter in Hr as [Hp _].
    unfold row_series in *. simpl. rewrite <- Heq.
    by rewrite (Hblind r'.1 r.1). }
  split_and!; [done..|].
  apply (f_equal length) in Hc. unfold cells in Hc.
  by rewrite !length_fmap in Hc.
Qed.

(** X8: [add_row] followed by [delete_rows] with a predicate that holds for
    the new row and for none of the rows that were there gives back the
    cells of the table (its rows renumbered), when the table has at least
    one column and the values of the new row fit the columns. *)
Theorem add_row_then_delete_rows {W} (w : World W)
    (row_data : list (string * cell)) (p : Series → bool)
    (Hcols : columns (table w) ≠ [])
    (Hfit : row_fits row_data (table w) = true)
    (Hold : ∀ l r, r ∈ rows (table w) →
              p {| name := l; items := zip (columns (table w)) r.2 |} = false)
    (Hnew : ∀ l, p {| name := l;
                      items := zip (columns (table w))
                                   (conformed_cells row_data (columns (table w))) |}
                 = true) :
  let added := (add_row row_data w).2 in
  let out := delete_rows (pure_fn p) added in
  out.1 = Ok PyNone
  ∧ cells (table out.2) = cells (table w)
  ∧ columns (table out.2) = columns (table w)
  ∧ index (table out.2) = range_index (length (rows (table w))).
Proof.
  intros added out. subst added out.
  destruct (add_row_outcome w row_data) as (_ & Ht & _).
  set (w1 := (add_row row_data w).2) in *.
  set (cols := columns (table w)) in *.
  set (new := conformed_cells row_data cols) in *.
  assert (empty (table w1) = false) as He.
  { rewrite Ht. unfold empty. simpl. rewrite renumber_length, length_app. simpl.
    destruct cols; [done|]. replace (length (rows (table w)) + 1)%nat
      with (S (length (rows (table w)))) by lia. done. }
  assert (cells (table (delete_rows (pure_fn p) w1).2) = cells (table w)
          ∧ columns (table (delete_rows (pure_fn p) w1).2) = cols) as [Hc Hcol].
  { rewrite (delete_rows_pure_table p w1), He. split; [|by rewrite Ht].
    unfold cells. simpl. rewrite renumber_cells.
    unfold surviving. rewrite Ht. simpl.
    rewrite (filter_cells _
               (λ cs, p {| name := Null; items := zip cols cs |} = false)).
    - rewrite renumber_cells, fmap_app, filter_app. simpl.
      rewrite filter_cons, decide_False, filter_nil, app_nil_r.
      + apply filter_all. apply Forall_forall. intros cs Hcs.
        apply list_elem_of_fmap in Hcs as (r & -> & Hr). by apply Hold.
      + by rewrite Hnew.
    - intros r' Hr'. apply renumber_elem in Hr' as (r & Hr & Heq).
      unfold row_series. simpl. rewrite <- Heq.
      apply elem_of_app in Hr as [Hr|Hr].
      + by rewrite !(Hold _ r Hr).
      + apply list_elem_of_singleton in Hr. subst r. simpl.
        by rewrite !Hnew. }
  split_and!; try done.
  - destruct (delete_rows_cases (pure_fn p) w1)
      as [[Hemp _]|[[_ (e & _ & Happ & _)]|[_ (mask & w2 & _ & Hok & _)]]].
    + by rewrite Hemp in He.
    + by rewrite apply_rows_pure in Happ.
    + done.
  - rewrite (delete_rows_pure_table p w1), He. unfold index. simpl.
    rewrite renumber_index. f_equal.
    apply (f_equal length) in Hc. unfold cells in Hc.
    rewrite (delete_rows_pure_table p w1), He in Hc. simpl in Hc.
    by rewrite !length_fmap, renumber_length in Hc.
Qed.

(** ** Tables without columns *)

Lemma guards_when_empty {W} (w : World W) :
  empty (table w) = true →
  (∀ condition_func cols,
     query condition_func cols w
     = (Ok (PyFrame (length (heap w))),
        allocated empty_frame (printed NoDataToQuery w)))
  ∧ (∀ condition_func updates,
       update_data condition_func updates w
       = (Ok PyNone, printed NoDataToUpdate w))
  ∧ (∀ condition_func,
       delete_rows condition_func w = (Ok PyNone, printed NoDataToDelete w)
       ∧ rows (table (delete_rows condition_func w).2) = rows (table w)).
Proof.
  unfold table. intros He.
  split_and!; intros.
  - unfold query, mbind, M_bind, get_self, deref. simpl. by rewrite He.
  - unfold update_data, mbind, M_bind, get_self, deref. simpl. by rewrite He.
  - unfold delete_rows, mbind, M_bind, get_self, deref. simpl. by rewrite He.
Qed.

(** X9: a table without columns counts as empty even when it has rows:
    [query], [update_data] and [delete_rows] return at their guard, the
    predicate is not called, and [delete_rows] deletes nothing. *)
Theorem no_columns_guards {W} (w : World W)
    (Hcols : columns (table w) = []) :
  (∀ condition_func cols,
     query condition_func cols w
     = (Ok (PyFrame (length (heap w))),
        allocated empty_frame (printed NoDataToQuery w)))
  ∧ (∀ condition_func updates,
       update_data condition_func updates w
       = (Ok PyNone, printed NoDataToUpdate w))
  ∧ (∀ condition_func,
       delete_rows condition_func w = (Ok PyNone, printed NoDataToDelete w)
       ∧ rows (table (delete_rows condition_func w).2) = rows (table w)).
Proof.
  apply guards_when_empty. unfold empty. rewrite Hcols. apply orb_true_r.
Qed.

Lemma after_add_rows_no_columns {W} (w : World W) dicts :
  columns (table w) = [] →
  columns (table (after_add_rows w dicts)) = []
  ∧ cells (table (after_add_rows w dicts))
    = cells (table w) ++ replicate (length dicts) [].
Proof.
  revert w. induction dicts as [|rd dicts IH]; intros w Hcols.
  { simpl. by rewrite app_nil_r. }
  change (after_add_rows w (rd :: dicts))
    with (after_add_rows (add_row rd w).2 dicts).
  destruct (add_row_outcome w rd) as (_ & Ht & _).
  destruct (IH (add_row rd w).2) as [IH1 IH2]; [by rewrite Ht|].
  split; [done|].
  rewrite IH2, Ht. unfold cells. cbn [rows].
  rewrite renumber_cells, fmap_app, Hcols. simpl.
  by rewrite <- (assoc (++)).
Qed.

(** X10: a manager created on a path that does not exist can never hold
    data.  Its table has no columns, so every [add_row] appends a row
    without cells, whatever the dict holds, and after any number of them
    the table still counts as empty: [query] returns an empty frame and
    [delete_rows] deletes nothing. *)
Theorem missing_file_never_holds_data {W} {RD : Reader} (w : World W)
    (path : string)
    (index_col : option string) (dicts : list (list (string * cell)))
    (Hmissing : fs w !! path = None) :
  let w0 := (__init__ path index_col w).2 in
  let wn := after_add_rows w0 dicts in
  table w0 = empty_frame
  ∧ columns (table wn) = []
  ∧ cells (table wn) = replicate (length dicts) []
  ∧ empty (table wn) = true
  ∧ (∀ condition_func cols,
       result_frame (query condition_func cols wn) = empty_frame)
  ∧ (∀ condition_func,
       rows (table (delete_rows condition_func wn).2) = rows (table wn)).
Proof.
  intros w0 wn. subst w0 wn.
  rewrite init_unfold. unfold load_outcome. rewrite Hmissing.
  simpl. rewrite table_last.
  set (w0 := {| heap := heap w ++ [empty_frame] |}).
  assert (table w0 = empty_frame) as Ht0 by apply table_last.
  destruct (after_add_rows_no_columns w0 dicts) as [Hc Hcells];
    [by rewrite Ht0|].
  rewrite Ht0 in Hcells. simpl in Hcells.
  assert (empty (table (after_add_rows w0 dicts)) = true) as He.
  { unfold empty. rewrite Hc. apply orb_true_r. }
  destruct (guards_when_empty (after_add_rows w0 dicts) He) as (Hq & _ & Hdel).
  split_and!; try done.
  - intros cf cols. rewrite Hq. unfold result_frame, frame_at. simpl.
    by rewrite list_lookup_middle.
  - intros cf. apply Hdel.
Qed.

(** ** What [query] returns *)

Lemma result_frame_query_pure {W} (w : World W) (p : option (Series → bool)) cols :
  result_frame (query (pure_fn <$> p) cols w) = query_frame p cols (table w).
Proof.
  destruct (query_pure_returns p cols w) as (l & Hl & Hd).
  unfold result_frame, frame_at. by rewrite Hl, Hd.
Qed.

(** X11: [query] with a predicate returns the rows the predicate holds for,
    in their order and with the labels they have in the table (it does
    not renumber them), under the same columns.  They are the rows
    [delete_rows] with the same predicate removes: together with the rows
    it leaves they make up the table. *)
Theorem query_selects_rows {W} (w : World W) (p : Series → bool)
    (Hdata : empty (table w) = false) :
  let d := table w in
  let res := result_frame (query (Some (pure_fn p)) None w) in
  rows res = filter (λ r, p (row_series d r) = true) (rows d)
  ∧ columns res = columns d
  ∧ index_name res = index_name d
  ∧ length (rows res) = count_matching p d
  ∧ (length (rows res) + length (rows (table (delete_rows (pure_fn p) w).2))
     = length (rows d))%nat.
Proof.
  intros d res. subst d res.
  change (Some (pure_fn p)) with (pure_fn (W:=W) <$> Some p).
  rewrite (result_frame_query_pure w (Some p) None).
  unfold query_frame. rewrite Hdata. simpl.
  unfold iter_rows. rewrite <- (list_fmap_compose (row_series (table w)) p).
  rewrite (select_mask_filter (p ∘ row_series (table w))).
  assert (length (filter (λ r, p (row_series (table w) r) = true) (rows (table w)))
          = count_matching p (table w)) as Hcount.
  { unfold count_matching, iter_rows. by rewrite filter_fmap_bool, length_fmap. }
  split_and!; try done.
  rewrite delete_rows_pure_table, Hdata. simpl. rewrite renumber_length.
  change (λ x, (p ∘ row_series (table w)) x = true)
    with (λ r, p (row_series (table w) r) = true).
  rewrite Hcount. apply count_matching_surviving.
Qed.

Lemma filter_shorter {A} (P : A → Prop) `{∀ x, Decision (P x)} (l : list A) :
  (length (filter P l) <? length l)%nat = bool_decide (¬ Forall P l).
Proof.
  induction l as [|x l IH]; [by rewrite bool_decide_eq_false_2 by (intros H'; by apply H')|].
  pose proof (length_filter P l) as Hle.
  rewrite filter_cons. destruct (decide (P x)) as [HP|HP]; simpl.
  - change (S (length (filter P l)) <? S (length l))%nat
      with (length (filter P l) <? length l)%nat.
    rewrite IH. apply bool_decide_ext. rewrite Forall_cons. tauto.
  - rewrite bool_decide_eq_true_2.
    + apply Nat.ltb_lt. lia.
    + rewrite Forall_cons. tauto.
Qed.

Lemma missing_set (P : string → Prop) `{∀ x, Decision (P x)} (cs : list string) :
  (list_to_set cs ∖ list_to_set (filter P cs) : gset string)
  = list_to_set (filter (λ c, ¬ P c) cs).
Proof.
  apply set_eq. intros c.
  rewrite elem_of_difference, !elem_of_list_to_set, !list_elem_of_filter.
  tauto.
Qed.

(** X12: [query] with a column list prints the warning about columns that
    were not found exactly when one of the requested names is not a column
    of the table, and the set it reports is the set of those names; when
    all exist it prints nothing. *)
Theorem query_reports_missing_columns {W} (w : World W)
    (p : option (Series → bool)) (c : string) (cs : list string)
    (Hdata : empty (table w) = false) :
  let out := query (pure_fn <$> p) (Some (c :: cs)) w in
  let missing := filter (λ col, col ∉ columns (table w)) (c :: cs) in
  stdout out.2
  = stdout w ++ (if decide (missing = []) then []
                 else [WarnColumnsIgnored (list_to_set missing)]).
Proof.
  intros out missing. subst out.
  assert (¬ Forall (λ col, col ∈ columns (table w)) (c :: cs) ↔ missing ≠ [])
    as Hiff.
  { subst missing. split.
    - intros Hnot Hnil. apply Hnot. apply Forall_forall. intros x Hx.
      destruct (decide (x ∈ columns (table w))) as [|Hn]; [done|].
      assert (x ∈ filter (λ col, col ∉ columns (table w)) (c :: cs)) as Hin
        by (by apply list_elem_of_filter).
      rewrite Hnil in Hin. by apply elem_of_nil in Hin.
    - intros Hne Hall. apply Hne.
      rewrite Forall_forall in Hall.
      destruct (filter _ (c :: cs)) as [|x l] eqn:Hf; [done|].
      assert (x ∈ filter (λ col, col ∉ columns (table w)) (c :: cs)) as Hin
        by (rewrite Hf; left).
      apply list_elem_of_filter in Hin as [Hn Hx]. destruct Hn. by apply Hall. }
  assert ((if (length (filter (λ col, col ∈ columns (table w)) (c :: cs))
               <? length (c :: cs))%nat
           then [WarnColumnsIgnored
                   (list_to_set (c :: cs)
                    ∖ list_to_set (filter (λ col, col ∈ columns (table w)) (c :: cs)))]
           else [])
          = (if decide (missing = []) then []
             else [WarnColumnsIgnored (list_to_set missing)])) as Hwarn.
  { rewrite (filter_shorter (λ col, col ∈ columns (table w)) (c :: cs)).
    rewrite (missing_set (λ col, col ∈ columns (table w)) (c :: cs)).
    fold missing.
    destruct (decide (missing = [])) as [Hm|Hm].
    - by rewrite bool_decide_eq_false_2 by (rewrite Hiff; by intros ?).
    - by rewrite bool_decide_eq_true_2 by (by apply Hiff). }
  rewrite <- Hwarn. clear Hwarn Hiff. subst missing.
  unfold query. cbv beta iota. set (l := c :: cs).
  unfold mbind, M_bind, get_self, deref. simpl.
  fold (table w). rewrite Hdata. simpl.
  destruct p as [f|]; simpl.
  - rewrite list_lookup_middle by done. simpl.
    rewrite apply_rows_pure. simpl.
    rewrite list_lookup_middle by (by rewrite length_app). simpl.
    destruct (_ <? _)%nat; simpl; [done|by rewrite app_nil_r].
  - rewrite list_lookup_middle by done. simpl.
    destruct (_ <? _)%nat; simpl; [done|by rewrite app_nil_r].
Qed.

(** ** Selecting columns *)

(** With distinct column labels each requested column that exists has one
    position. *)
Lemma column_positions (cols cs : list string) :
  NoDup cols → Forall (λ c, c ∈ cols) cs →
  Forall2 (λ c j, cols !! j = Some c) cs (cs ≫= (λ c, locate c cols)).
Proof.
  intros Hnd Hcs. induction Hcs as [|c cs Hc _ IH]; [constructor|].
  apply list_elem_of_lookup_1 in Hc as [j Hj].
  rewrite bind_cons, (locate_unique c cols j) by done.
  by constructor.
Qed.

(** [row[c]] in terms of the position of [c]. *)
Lemma dict_get_zip (cols : list string) (cs : list cell) c j :
  NoDup cols → cols !! j = Some c → length cs = length cols →
  dict_get c (zip cols cs) = cs !! j.
Proof.
  revert cs j. induction cols as [|k cols IH]; intros cs j Hnd Hj Hlen; [done|].
  destruct cs as [|v cs]; [done|]. apply NoDup_cons in Hnd as [Hk Hnd].
  simpl. destruct j as [|j]; simpl in *.
  - injection Hj as ->. by rewrite decide_True.
  - rewrite decide_False.
    + apply IH; [done..|lia].
    + intros ->. apply Hk. by eapply list_elem_of_lookup_2.
Qed.

Lemma dict_get_selected (cols : list string) (cs : list cell) sel ps c :
  NoDup cols → length cs = length cols →
  Forall2 (λ c j, cols !! j = Some c) sel ps → c ∈ sel →
  dict_get c (zip sel (take_cells ps cs)) = dict_get c (zip cols cs).
Proof.
  intros Hnd Hlen Hsel. induction Hsel as [|c0 j0 sel ps Hj0 _ IH]; intros Hc.
  { by apply elem_of_nil in Hc. }
  simpl. case_decide as Heq.
  - subst c0. rewrite (dict_get_zip cols cs c j0) by done.
    assert (j0 < length cs)%nat as Hlt.
    { rewrite Hlen. by eapply lookup_lt_Some. }
    by destruct (lookup_lt_is_Some_2 _ _ Hlt) as [v ->].
  - apply IH. apply elem_of_cons in Hc as [->|Hc]; done.
Qed.

(** The frame [df[cols]] for existing, distinct column labels. *)
Lemma getitem_columns_spec (q : DataFrame) (sel : list string) :
  NoDup (columns q) → aligned q → Forall (λ c, c ∈ columns q) sel →
  columns (getitem_columns sel q) = sel
  ∧ index (getitem_columns sel q) = index q
  ∧ index_name (getitem_columns sel q) = index_name q
  ∧ ∀ i r, rows q !! i = Some r →
      ∃ r', rows (getitem_columns sel q) !! i = Some r' ∧ r'.1 = r.1
            ∧ length r'.2 = length sel
            ∧ ∀ c, c ∈ sel →
                getitem (row_series (getitem_columns sel q) r') c
                = getitem (row_series q r) c.
Proof.
  intros Hnd Hal Hsel.
  pose proof (column_positions (columns q) sel Hnd Hsel) as Hps.
  assert (columns (getitem_columns sel q) = sel) as Hcols.
  { unfold getitem_columns. simpl.
    induction Hps as [|c j sel' ps Hj _ IH]; [done|].
    rewrite fmap_cons, Hj. simpl. f_equal.
    apply IH. by apply Forall_inv_tail in Hsel. }
  split_and!; [done| |done|].
  - unfold index, getitem_columns. simpl.
    rewrite <- list_fmap_compose. by apply list_fmap_ext.
  - intros i r Hr. eexists. split_and!.
    + unfold getitem_columns. simpl. by rewrite list_lookup_fmap, Hr.
    + done.
    + simpl. unfold take_cells. rewrite length_fmap.
      by rewrite (Forall2_length _ _ _ Hps).
    + intros c Hc. unfold getitem, row_series. rewrite Hcols. simpl.
      apply dict_get_selected; [done| |done|done].
      by apply (Forall_lookup_1 _ _ _ _ Hal Hr).
Qed.

Lemma filter_Forall {A} (P : A → Prop) `{∀ x, Decision (P x)} (l : list A) :
  Forall P (filter P l).
Proof. apply Forall_forall. intros x Hx. by apply list_elem_of_filter in Hx as [? _]. Qed.

(** X13: [query] with a column list returns, for a table with distinct
    column labels, exactly the requested names that are columns, in the
    order requested (a name asked twice comes twice), and the rows of the
    answer without column list, with their labels, each restricted to
    those columns: under every selected name the row holds what the row of
    the table holds. *)
Theorem query_projects_columns {W} (w : World W) (p : option (Series → bool))
    (c0 : string) (cs : list string)
    (Hdata : empty (table w) = false) (Hnd : NoDup (columns (table w)))
    (Hal : aligned (table w)) :
  let full := result_frame (query (pure_fn <$> p) None w) in
  let res := result_frame (query (pure_fn <$> p) (Some (c0 :: cs)) w) in
  columns res = filter (λ c, c ∈ columns (table w)) (c0 :: cs)
  ∧ index res = index full
  ∧ aligned res
  ∧ ∀ i r, rows full !! i = Some r →
      ∃ r', rows res !! i = Some r' ∧ r'.1 = r.1
            ∧ ∀ c, c ∈ c0 :: cs → c ∈ columns (table w) →
                getitem (row_series res r') c = getitem (row_series full r) c.
Proof.
  intros full res. subst full res.
  rewrite !result_frame_query_pure. unfold query_frame. rewrite Hdata.
  set (q1 := match p with
             | Some f => getitem_mask (f <$> iter_rows (table w)) (table w)
             | None => table w
             end).
  assert (columns q1 = columns (table w)) as Hc by (subst q1; by destruct p).
  assert (aligned q1) as Hal1.
  { subst q1. destruct p; [|done]. unfold aligned, getitem_mask. simpl.
    by apply select_mask_Forall. }
  set (sel := filter (λ col, col ∈ columns q1) (c0 :: cs)).
  assert (sel = filter (λ c, c ∈ columns (table w)) (c0 :: cs)) as Hsel
    by (subst sel; by rewrite Hc).
  destruct (getitem_columns_spec q1 sel) as (H1 & H2 & H3 & H4).
  { by rewrite Hc. }
  { done. }
  { apply filter_Forall. }
  split_and!; [by rewrite H1| done | |].
  - unfold aligned. rewrite H1. apply Forall_lookup. intros i r' Hr'.
    assert (is_Some (rows q1 !! i)) as [r Hr].
    { apply lookup_lt_is_Some. apply lookup_lt_Some in Hr'.
      unfold getitem_columns in Hr'. simpl in Hr'.
      by rewrite length_fmap in Hr'. }
    destruct (H4 i r Hr) as (r'' & Hr'' & _ & Hlen & _).
    rewrite Hr' in Hr''. by injection Hr'' as <-.
  - intros i r Hr. destruct (H4 i r Hr) as (r' & Hr' & Hl & _ & Hget).
    exists r'. split_and!; [done..|].
    intros c Hc1 Hc2. apply Hget. subst sel.
    apply list_elem_of_filter. by rewrite Hc.
Qed.

(** ** Files written with their index *)

(** The model of [read_csv] with an index column, in terms of the model
    without: the named column leaves the columns and becomes the index; a
    name that is not in the header is a ValueError. *)
Lemma parse_csv_index_col text c d0 :
  parse_csv text None = Some (inr d0) → rows d0 ≠ [] →
  parse_csv text (Some c)
  = match locate c (columns d0) with
    | [] => Some (inl (ValueError ("Index " +:+ c +:+ " invalid")))
    | j :: _ =>
        if decide (default [] (head (filter (λ r, r ≠ []) text)) !! j = Some "")
        then None
        else
          Some (inr {| index_name := Some c;
                       columns := delete_at j (columns d0);
                       rows := (λ r, (default Null (r.2 !! j), delete_at j r.2))
                               <$> rows d0 |})
    end.
Proof.
  unfold parse_csv.
  destruct (filter _ text) as [|header records]; [done|].
  destruct (negb _); [done|]. destruct (bool_decide _); [done|].
  destruct (list_find _ records) as [[? ?]|]; [done|].
  destruct (mapM _ _) as [cols|]; [|done]. cbn [mbind option_bind].
  intros [= <-] Hrows. cbn [rows columns] in *.
  destruct records as [|r1 records']; [done|].
  destruct (locate c (header_names header)) as [|j js]; [done|].
  change (default [] (head (header :: r1 :: records'))) with header.
  destruct (decide (header !! j = Some "")); [done|].
  by rewrite <- list_fmap_compose.
Qed.









(** X16: when the file is there but [read_csv] raises on it, the manager
    holds the empty table, and the next [save_changes()] replaces the file
    by the text of the empty table. *)
Theorem failed_load_then_save_overwrites {W} {RD : Reader} (w : World W)
    (path : string) (index_col : option string) (text : list (list string))
    (e : exn) :
  path ≠ "" → fs w !! path = Some (RegularFile text) →
  read_text text (truthy index_col) = inl e →
  let w1 := (__init__ path index_col w).2 in
  let w2 := (save_changes None [] w1).2 in
  table w1 = empty_frame
  ∧ fs w2 !! path = Some (RegularFile [[""]])
  ∧ stdout w2 = stdout w ++ [load_report path e; Loaded path (0, 0)%nat; Saved path].
Proof.
  intros Hpath Hfs Hparse w1 w2. subst w2 w1.
  rewrite init_unfold. unfold load_outcome. rewrite Hfs, Hparse. simpl.
  split; [by rewrite table_last|].
  set (w1 := {| heap := _ |}).
  pose proof (save_changes_unfold None [] w1) as Hs. simpl in Hs.
  rewrite (to_csv_ok w1 (table w1) path []) in Hs; [|done..|].
  - rewrite Hs. simpl. rewrite lookup_insert_eq. subst w1.
    rewrite table_last. simpl. split; [done|].
    by rewrite <- (assoc (++)).
  - subst w1. simpl. by rewrite Hfs.
Qed.

(** X17: a key column that is not among the columns of the file makes the
    load fail: the manager holds the empty table and the error is only
    printed (the file is one the model covers, with distinct column names
    and at least one data record). *)
Theorem unknown_key_column_loads_nothing {W} {RD : Reader} (w : World W)
    (path : string) (c : string) (text : list (list string)) (d0 : DataFrame) :
  agrees_with_model →
  c ≠ "" → fs w !! path = Some (RegularFile text) →
  parse_csv text None = Some (inr d0) → rows d0 ≠ [] → c ∉ columns d0 →
  let out := __init__ path (Some c) w in
  out.1 = Ok ()
  ∧ table out.2 = empty_frame
  ∧ stdout out.2
    = stdout w ++ [ErrorLoading (ValueError ("Index " +:+ c +:+ " invalid"));
                   Loaded path (0, 0)%nat].
Proof.
  intros Hagree Hc Hfs Hparse Hrows Hnot out. subst out.
  rewrite init_unfold. unfold load_outcome. rewrite Hfs. simpl.
  rewrite decide_False by done.
  pose proof (parse_csv_index_col text c d0 Hparse Hrows) as Hkey.
  unfold locate in Hkey. rewrite locate_from_notin in Hkey by done.
  rewrite (Hagree _ _ _ Hkey). simpl.
  split; [done|]. split; [by rewrite table_last|done].
Qed.

(** ** The further properties on concrete tables *)

(** Constructing a manager on the file of [people]: rows 0 and 1. *)
Lemma init_establishes_invariants_witness :
  agrees_with_model (RD := model_reader)
  ∧ (∀ text, fs w_on_disk !! "people.csv" = Some (RegularFile text) →
             is_Some (parse_csv text (truthy None)))
  ∧ truthy None = None
  ∧ index (table (__init__ (RD := model_reader) "people.csv" None w_on_disk).2)
    = [Num 0; Num 1].
Proof.
  pose proof model_reader_agrees as Ha.
  assert (∀ text, fs w_on_disk !! "people.csv" = Some (RegularFile text) →
                  is_Some (parse_csv text (truthy None))) as Hm.
  { intros text Hfs. vm_compute in Hfs. injection Hfs as <-.
    vm_compute. eauto. }
  assert (truthy None = None) as H0 by reflexivity.
  split_and!; try assumption.
  destruct (init_establishes_invariants (RD := model_reader) w_on_disk
              "people.csv" None Ha Hm)
    as (_ & _ & _ & _ & _ & _ & H).
  destruct (H H0) as [Hd _]. rewrite Hd. reflexivity.
Defined.

(** The manager of [people] stays well formed under [add_row]. *)
Lemma methods_keep_invariants_witness :
  well_formed w_people
  ∧ well_formed (add_row [("name", Str "c")] w_people).2.
Proof.
  assert (well_formed w_people) as Hwf.
  { split; [unfold valid; simpl; lia|repeat constructor]. }
  split; [assumption|].
  destruct (methods_keep_invariants w_people Hwf) as (Ha & _).
  apply Ha.
Defined.

(** A predicate that raises on [people]: nothing is deleted. *)
Lemma delete_rows_all_or_nothing_witness :
  (delete_rows failing w_people).1 = Raise (UserException "boom")
  ∧ table (delete_rows failing w_people).2 = people.
Proof.
  assert ((delete_rows failing w_people).1 = Raise (UserException "boom")) as H
    by reflexivity.
  split; [assumption|].
  destruct (delete_rows_all_or_nothing w_people failing (UserException "boom") H)
    as (_ & _ & _ & Ht & _).
  rewrite Ht. reflexivity.
Defined.


(** Nobody in [people] is 100. *)
Lemma update_data_no_match_witness :
  empty (table w_people) = false
  ∧ (∀ r, r ∈ rows (table w_people) →
       at_least "age" 100 (row_series (table w_people) r) = false)
  ∧ update_data (pure_fn (at_least "age" 100))
      (lift_updates [("age", PStatic (Num 0))]) w_people
    = (Ok PyNone, printed NoRowsMatched w_people).
Proof.
  assert (empty (table w_people) = false) as Hd by reflexivity.
  assert (∀ r, r ∈ rows (table w_people) →
            at_least "age" 100 (row_series (table w_people) r) = false) as Hn.
  { apply Forall_forall. repeat constructor. }
  split_and!; try assumption.
  apply (update_data_no_match w_people (at_least "age" 100) _ Hd Hn).
Defined.

(** Deleting from [people] who is 30 or more, twice. *)
Lemma delete_rows_idempotent_witness :
  label_blind (at_least "age" 30)
  ∧ cells (table (delete_rows (pure_fn (at_least "age" 30))
                    (delete_rows (pure_fn (at_least "age" 30)) w_people).2).2)
    = [[Str "b"; Num 25]].
Proof.
  assert (label_blind (at_least "age" 30)) as Hb by (intros l l' its; reflexivity).
  split; [assumption|].
  pose proof (delete_rows_idempotent w_people (at_least "age" 30) Hb) as H.
  cbv zeta in H. destruct H as (H & _). rewrite H. reflexivity.
Defined.

(** Adding a row to [people] and deleting it again. *)
Lemma add_row_then_delete_rows_witness :
  columns (table w_people) ≠ []
  ∧ row_fits [("name", Str "c"); ("age", Num 40)] (table w_people) = true
  ∧ cells (table (delete_rows (pure_fn (at_least "age" 35))
                    (add_row [("name", Str "c"); ("age", Num 40)] w_people).2).2)
    = cells people.
Proof.
  assert (columns (table w_people) ≠ []) as Hc by discriminate.
  assert (row_fits [("name", Str "c"); ("age", Num 40)] (table w_people) = true)
    as Hf by (vm_compute; reflexivity).
  split_and!; try assumption.
  assert (∀ l r, r ∈ rows (table w_people) →
            at_least "age" 35
              {| name := l; items := zip (columns (table w_people)) r.2 |} = false)
    as Hold.
  { intros l. apply Forall_forall. repeat constructor. }
  assert (∀ l, at_least "age" 35
                 {| name := l;
                    items := zip (columns (table w_people))
                               (conformed_cells [("name", Str "c"); ("age", Num 40)]
                                  (columns (table w_people))) |} = true) as Hnew.
  { intros l. reflexivity. }
  pose proof (add_row_then_delete_rows w_people
                [("name", Str "c"); ("age", Num 40)] (at_least "age" 35)
                Hc Hf Hold Hnew) as H.
  cbv zeta in H. destruct H as (_ & H & _). rewrite H. reflexivity.
Defined.

(** A table with two rows and no columns: the predicate, which would
    raise, is not called, and the rows stay. *)
Lemma no_columns_guards_witness :
  columns (table w_no_columns) = []
  ∧ length (rows (table w_no_columns)) = 2%nat
  ∧ delete_rows failing w_no_columns
    = (Ok PyNone, printed NoDataToDelete w_no_columns)
  ∧ rows (table (delete_rows failing w_no_columns).2) = [(Num 0, []); (Num 1, [])]
  ∧ update_data failing [] w_no_columns
    = (Ok PyNone, printed NoDataToUpdate w_no_columns)
  ∧ query (Some failing) None w_no_columns
    = (Ok (PyFrame 1), allocated empty_frame (printed NoDataToQuery w_no_columns)).
Proof.
  assert (columns (table w_no_columns) = []) as Hc by reflexivity.
  assert (length (rows (table w_no_columns)) = 2%nat) as Hr by reflexivity.
  destruct (no_columns_guards w_no_columns Hc) as (Hq & Hu & H).
  destruct (H failing) as [Hd Hrows].
  split_and!; [assumption|assumption|assumption|exact Hrows|apply Hu|apply Hq].
Defined.

(** Two rows added to a manager made on a missing file. *)
Lemma missing_file_never_holds_data_witness :
  fs w_missing !! "people.csv" = None
  ∧ cells (table (after_add_rows
                    (__init__ (RD := model_reader) "people.csv" None w_missing).2
                    [[("name", Str "a")]; [("name", Str "b")]]))
    = [[]; []].
Proof.
  assert (fs w_missing !! "people.csv" = None) as Hm by reflexivity.
  split; [assumption|].
  pose proof (missing_file_never_holds_data (RD := model_reader) w_missing
                "people.csv" None
                [[("name", Str "a")]; [("name", Str "b")]] Hm) as H.
  cbv zeta in H. destruct H as (_ & _ & H & _). rewrite H. reflexivity.
Defined.

(** Who in [people] is 26 or more. *)
Lemma query_selects_rows_witness :
  empty (table w_people) = false
  ∧ rows (result_frame (query (Some (pure_fn (at_least "age" 26))) None w_people))
    = [(Num 0, [Str "a"; Num 30])].
Proof.
  assert (empty (table w_people) = false) as Hd by reflexivity.
  split; [assumption|].
  pose proof (query_selects_rows w_people (at_least "age" 26) Hd) as H.
  cbv zeta in H. destruct H as (H & _). rewrite H. reflexivity.
Defined.

(** Asking [people] for a column it does not have. *)
Lemma query_reports_missing_columns_witness :
  empty (table w_people) = false
  ∧ stdout (query (pure_fn <$> None) (Some ["age"; "zip"]) w_people).2
    = [WarnColumnsIgnored {[ "zip" ]}].
Proof.
  assert (empty (table w_people) = false) as Hd by reflexivity.
  split; [assumption|].
  pose proof (query_reports_missing_columns w_people None "age" ["zip"] Hd) as H.
  cbv zeta in H. rewrite H. vm_compute. reflexivity.
Defined.

(** Asking [people] for its columns in the other order. *)
Lemma query_projects_columns_witness :
  empty (table w_people) = false ∧ NoDup (columns (table w_people))
  ∧ aligned (table w_people)
  ∧ columns (result_frame (query (pure_fn <$> None) (Some ["age"; "zip"; "name"])
                             w_people))
    = ["age"; "name"].
Proof.
  assert (empty (table w_people) = false) as Hd by reflexivity.
  assert (NoDup (columns (table w_people))) as Hn by compute_done.
  assert (aligned (table w_people)) as Ha by (repeat constructor).
  split_and!; try assumption.
  pose proof (query_projects_columns w_people None "age" ["zip"; "name"] Hd Hn Ha) as H.
  cbv zeta in H. destruct H as (H & _). rewrite H. vm_compute. reflexivity.
Defined.



(** A file without records is lost by loading and saving. *)
Lemma failed_load_then_save_overwrites_witness :
  "people.csv" ≠ ""
  ∧ fs w_blank !! "people.csv" = Some (RegularFile [])
  ∧ read_text (Reader := model_reader) [] (truthy None) = inl EmptyDataError
  ∧ fs (save_changes None []
          (__init__ (RD := model_reader) "people.csv" None w_blank).2).2
      !! "people.csv"
    = Some (RegularFile [[""]])
  ∧ stdout (save_changes None []
              (__init__ (RD := model_reader) "people.csv" None w_blank).2).2
    = [WarnFileEmpty "people.csv"; Loaded "people.csv" (0, 0)%nat;
       Saved "people.csv"].
Proof.
  assert ("people.csv" ≠ "") as H1 by discriminate.
  assert (fs w_blank !! "people.csv" = Some (RegularFile [])) as H2
    by (vm_compute; reflexivity).
  assert (read_text (Reader := model_reader) [] (truthy None) = inl EmptyDataError)
    as H3 by reflexivity.
  split_and!; try assumption.
  - pose proof (failed_load_then_save_overwrites (RD := model_reader) w_blank
                  "people.csv" None _ _ H1 H2 H3) as H.
    cbv zeta in H. destruct H as (_ & H & _). apply H.
  - pose proof (failed_load_then_save_overwrites (RD := model_reader) w_blank
                  "people.csv" None _ _ H1 H2 H3) as H.
    cbv zeta in H. destruct H as (_ & _ & H). apply H.
Defined.

(** Loading the file of [people] with a key column it does not have. *)
Lemma unknown_key_column_loads_nothing_witness :
  agrees_with_model (RD := model_reader)
  ∧ "id" ≠ ""
  ∧ fs w_on_disk !! "people.csv"
    = Some (RegularFile [["name"; "age"]; ["a"; "30"]; ["b"; "25"]])
  ∧ parse_csv [["name"; "age"]; ["a"; "30"]; ["b"; "25"]] None = Some (inr people)
  ∧ rows people ≠ []
  ∧ ("id" ∉ columns people)
  ∧ table (__init__ (RD := model_reader) "people.csv" (Some "id") w_on_disk).2
    = empty_frame.
Proof.
  pose proof model_reader_agrees as H0.
  assert ("id" ≠ "") as H1 by discriminate.
  assert (fs w_on_disk !! "people.csv"
          = Some (RegularFile [["name"; "age"]; ["a"; "30"]; ["b"; "25"]])) as H2
    by (vm_compute; reflexivity).
  assert (parse_csv [["name"; "age"]; ["a"; "30"]; ["b"; "25"]] None
          = Some (inr people))
    as H3 by (vm_compute; reflexivity).
  assert (rows people ≠ []) as H4 by discriminate.
  assert ("id" ∉ columns people) as H5 by compute_done.
  split_and!; try assumption.
  pose proof (unknown_key_column_loads_nothing (RD := model_reader) w_on_disk
                "people.csv" "id" _ _ H0 H1 H2 H3 H4 H5) as H.
  cbv zeta in H. destruct H as (_ & H & _). apply H.
Defined.
